(** * A shallow embedding of rkt's stage1 [prepare-app]

    [src/stage1/prepare-app/prepare-app.c] prepares the stage2 root of a
    container: it bind-mounts the root onto itself, builds a skeleton of
    directories, writes [/etc/hosts], bind-mounts device nodes, directories,
    [/sys] and [resolv.conf], and creates two symlinks.

    The program is straight-line C whose behaviour depends only on the
    results of its system calls.  We model it as a computation in a small
    monad over a state holding the global counter [exit_err] of the C file
    and the trace of system calls issued so far.  The results of the system
    calls are given by an oracle, the record [Env].  A call to [exit] ends
    the computation with the exit code; [exit_if] and [pexit_if] increment
    [exit_err] before testing their condition, as the macros do. *)

From Stdlib Require Import String Ascii List ZArith NArith Bool Lia Sorting.Sorted.
Import ListNotations.

Local Open Scope string_scope.
Local Open Scope N_scope.
Local Open Scope list_scope.

Infix "+++" := String.append (at level 60, right associativity).

(** ** Constants of the C file and of the Linux headers *)

Definition MS_BIND : N := 4096.
Definition MS_REC : N := 16384.
Definition CGROUP2_SUPER_MAGIC : Z := 1667723888%Z. (* 0x63677270 *)
Definition TMPFS_MAGIC : Z := 16914836%Z.           (* 0x01021994 *)
(** [UNMAPPED] is [(uid_t) -1] with a 32-bit [uid_t]. *)
Definition UNMAPPED : N := 4294967295.
Definition DT_DIR : nat := 4.
Definition DT_REG : nat := 8.
(** [PATH_BUF] is [sizeof(to)] for every [char to[4096]] of the file. *)
Definition PATH_BUF : nat := 4096.

Definition TAB : string := String (ascii_of_nat 9) EmptyString.
Definition NL : string := String (ascii_of_nat 10) EmptyString.
Definition NUL : ascii := ascii_of_nat 0.

(** ** [snprintf]

    [snprintf(buf, size, ...)] writes at most [size - 1] characters of the
    formatted text and returns the length of the whole text. *)
Definition snprintf (size : nat) (full : string) : string * nat :=
  (substring 0 (size - 1) full, String.length full).

(** [%.Ns]: at most [n] characters, stopping at a NUL byte. *)
Fixpoint prec_s (n : nat) (s : string) : string :=
  match n, s with
  | O, _ => EmptyString
  | _, EmptyString => EmptyString
  | S n', String c r => if Ascii.eqb c NUL then EmptyString else String c (prec_s n' r)
  end.

(** ** System-call results *)

Inductive errno := ENOENT | EISDIR | EEXIST | EACCES | EROFS | ENXIO | ENOTDIR | EIO.

Definition errno_eqb (a b : errno) : bool :=
  match a, b with
  | ENOENT, ENOENT | EISDIR, EISDIR | EEXIST, EEXIST | EACCES, EACCES
  | EROFS, EROFS | ENXIO, ENXIO | ENOTDIR, ENOTDIR | EIO, EIO => true
  | _, _ => false
  end.

Record dirent := mk_dirent { d_name : string; d_type : nat }.

(** The environment: what each system call of the program returns.
    [None] for an [option errno] result means the call succeeded. *)
Record Env := mkEnv {
  sys_mount : string -> string -> N -> option errno;   (* mount(src, tgt, "bind", flags, NULL) *)
  sys_open_root : bool;                               (* open(root, O_DIRECTORY) >= 0 *)
  sys_unlinkat : string -> option errno;              (* unlinkat(rootfd, p, 0) *)
  sys_mkdirat : string -> option errno;               (* mkdirat(rootfd, p, mode) *)
  sys_faccessat : string -> bool;                     (* faccessat(rootfd, p, F_OK) == 0 *)
  mid_open : bool;                                    (* open("/etc/machine-id") *)
  mid_read_ok : bool;                                 (* read(...) != -1 *)
  mid_contents : string;                              (* contents of /etc/machine-id *)
  mid_buf0 : string;                                  (* the uninitialised bytes of buf *)
  mid_close : bool;
  hosts_open : bool;                                  (* openat(rootfd, "etc/hosts", O_CREAT) *)
  hosts_write_ok : bool;                              (* write returns len *)
  hosts_close : bool;
  sys_access : string -> bool;                        (* access(p, F_OK) == 0 *)
  sys_open_creat : string -> bool;                    (* open(p, O_WRONLY|O_CREAT, ...) != -1 *)
  sys_creat : string -> bool;                         (* creat(p, 0644) != -1 *)
  sys_close : string -> bool;                         (* close of that descriptor == 0 *)
  statfs_cgroup : option Z;                           (* statfs("/sys/fs/cgroup").f_type *)
  uidmap_fopen : bool;                                (* fopen("/proc/1/uid_map") *)
  uidmap_text : string;                               (* its contents *)
  uidmap_fclose : bool;
  host_dir : string -> list dirent;                   (* entries of a host directory *)
  stage2_dir : string -> list dirent;                 (* entries of a path not covered by a mount *)
  sys_opendir : string -> bool;
  readdir_err : string -> bool;                       (* readdir ended with errno != 0 *)
  sys_closedir : bool;
  sys_symlink : string -> string -> option errno;     (* symlink(target, linkpath) *)
}.

(** ** The trace

    Every system call is recorded with the component of the design it
    belongs to; [OProbe] records the calls that do not change the file
    system. *)

Inductive comp := Setup | Skeleton | Hosts | DevMounts | SysMount | FileMounts.

Inductive op :=
| OMount (src tgt fstype : string) (flags : N)
| OUnlink (path : string)
| OMkdir (path : string) (mode : N)
| OCreate (path : string)
| OWrite (path data : string)
| OSymlink (target linkpath : string)
| OProbe (call path : string).

Definition event := (comp * op)%type.

Definition mutating (o : op) : bool :=
  match o with OProbe _ _ => false | _ => true end.

Record St := mkSt { exit_err : nat; cur : comp; events : list event }.

Definition st0 : St := mkSt 0 Setup [].

(** ** The monad *)

Inductive outcome (A : Type) := Ok (a : A) | Exit (code : nat).
Arguments Ok {A} a.
Arguments Exit {A} code.

Definition M (A : Type) := St -> outcome A * St.

Definition ret {A} (a : A) : M A := fun s => (Ok a, s).

Definition bind {A B} (m : M A) (k : A -> M B) : M B :=
  fun s => match m s with
           | (Ok a, s') => k a s'
           | (Exit c, s') => (Exit c, s')
           end.

Notation "x <- m ;; k" := (bind m (fun x => k))
  (at level 61, m at next level, right associativity).
Notation "m ;; k" := (bind m (fun _ => k))
  (at level 61, right associativity).

(** [exit_err++; if (cond) exit(exit_err);] *)
Definition exit_if (c : bool) : M unit :=
  fun s => let n := S (exit_err s) in
           let s' := mkSt n (cur s) (events s) in
           if c then (Exit n, s') else (Ok tt, s').

(** [pexit_if] only adds [strerror(errno)] to the message. *)
Definition pexit_if := exit_if.

Definition emit (o : op) : M unit :=
  fun s => (Ok tt, mkSt (exit_err s) (cur s) (events s ++ [(cur s, o)])).

(** Issue a system call: record it and return the oracle's answer. *)
Definition syscall {A} (o : op) (r : A) : M A := emit o ;; ret r.

(** The component boundaries of [main]: an annotation only. *)
Definition enter (c : comp) : M unit :=
  fun s => (Ok tt, mkSt (exit_err s) c (events s)).

Fixpoint for_each {A} (l : list A) (f : A -> M unit) : M unit :=
  match l with
  | [] => ret tt
  | x :: r => f x ;; for_each r f
  end.

Definition is_some {A} (o : option A) : bool := match o with Some _ => true | None => false end.

(** ** [fscanf(f, "%u %u %u", ...)]

    glibc's [%u] skips white space, accepts an optional sign, reads the
    digits with [strtoul] (which saturates at [ULONG_MAX] and negates a
    number with a minus sign modulo 2^64) and stores the result in an
    [unsigned int].  [fscanf] returns the number of conversions, or [EOF]
    when the input ends before the first one. *)

Definition is_space (c : ascii) : bool :=
  let n := nat_of_ascii c in (Nat.eqb n 32 || (Nat.leb 9 n && Nat.leb n 13))%bool.

Fixpoint skip_ws (s : string) : string :=
  match s with
  | String c r => if is_space c then skip_ws r else s
  | EmptyString => EmptyString
  end.

Definition digit_val (c : ascii) : option N :=
  let n := nat_of_ascii c in
  if (Nat.leb 48 n && Nat.leb n 57)%bool then Some (N.of_nat (n - 48)) else None.

(** The digits at the head of [s]: value, number of digits, rest. *)
Fixpoint read_digits (s : string) (acc : N) (cnt : nat) : N * nat * string :=
  match s with
  | String c r =>
      match digit_val c with
      | Some d => read_digits r (acc * 10 + d) (S cnt)
      | None => (acc, cnt, s)
      end
  | EmptyString => (acc, cnt, s)
  end.

Definition ULONG_MAX : N := 2 ^ 64 - 1.

Definition conv_u (s : string) : option (N * string) :=
  let '(neg, s1) :=
    match s with
    | String c r => if Ascii.eqb c "-"%char then (true, r)
                    else if Ascii.eqb c "+"%char then (false, r) else (false, s)
    | EmptyString => (false, s)
    end in
  let '(v, cnt, rest) := read_digits s1 0 0 in
  if Nat.eqb cnt 0 then None
  else
    let ul := if v <=? ULONG_MAX
              then (if neg then (2 ^ 64 - v) mod 2 ^ 64 else v)
              else ULONG_MAX in
    Some (ul mod 2 ^ 32, rest).

Fixpoint scan_u (n : nat) (s : string) (acc : list N) : Z * list N :=
  match n with
  | O => (Z.of_nat (length acc), acc)
  | S n' =>
      let s' := skip_ws s in
      match s' with
      | EmptyString => (match acc with [] => (-1)%Z | _ => Z.of_nat (length acc) end, acc)
      | _ =>
          match conv_u s' with
          | None => (Z.of_nat (length acc), acc)
          | Some (v, r) => scan_u n' r (acc ++ [v])
          end
      end
  end.

Definition fscanf_uid_map (text : string) : Z * list N := scan_u 3 text [].

(** ** The static tables of the C file *)

Record mount_point := mk_mp {
  mp_source : string; mp_target : string; mp_type : string; mp_flags : N }.

Definition mnt_rec : mount_point := mk_mp "/sys" "sys" "bind" (N.lor MS_BIND MS_REC).

Definition sys_bind_table : list mount_point :=
  [ mk_mp "/sys" "sys" "bind" MS_BIND;
    mk_mp "/sys/fs/cgroup" "sys/fs/cgroup" "bind" MS_BIND ].

Definition unlink_paths : list string := [ "dev/shm"; "dev/ptmx" ].

Definition dirs : list (string * N) :=
  [ ("dev", 493); ("dev/net", 493); ("dev/shm", 493); ("etc", 493);
    ("proc", 493); ("sys", 493); ("tmp", 1023); ("dev/pts", 493);
    ("run", 493); ("run/systemd", 493); ("run/systemd/journal", 493) ].

Definition devnodes : list string :=
  [ "/dev/null"; "/dev/zero"; "/dev/full"; "/dev/random"; "/dev/urandom";
    "/dev/tty"; "/dev/net/tun"; "/dev/console" ].

Definition dirs_mount_table : list mount_point :=
  [ mk_mp "/proc" "/proc" "bind" (N.lor MS_BIND MS_REC);
    mk_mp "/dev/shm" "/dev/shm" "bind" MS_BIND;
    mk_mp "/dev/pts" "/dev/pts" "bind" MS_BIND;
    mk_mp "/run/systemd/journal" "/run/systemd/journal" "bind" MS_BIND ].

Definition files_mount_table : list mount_point :=
  [ mk_mp "/etc/rkt-resolv.conf" "/etc/resolv.conf" "bind" MS_BIND ].

(** The entries a directory listing of [path] shows after the mounts of
    the trace: those of the source of the last successful mount on
    [path], or those of the stage2 directory itself. *)
Definition mounted_source (env : Env) (evs : list event) (path : string) : option string :=
  fold_left (fun acc (e : event) =>
      match snd e with
      | OMount src tgt _ fl =>
          if (String.eqb tgt path && negb (is_some (sys_mount env src tgt fl)))%bool
          then Some src else acc
      | _ => acc
      end) evs None.

Definition visible_entries (env : Env) (evs : list event) (path : string) : list dirent :=
  match mounted_source env evs path with
  | Some src => host_dir env src
  | None => stage2_dir env path
  end.

Section Engine.

Variable env : Env.

Definition do_mount (src tgt fstype : string) (fl : N) : M (option errno) :=
  syscall (OMount src tgt fstype fl) (sys_mount env src tgt fl).

(** [static void mount_at(const char *root, const mount_point *mnt)] *)
Definition mount_at (root : string) (mnt : mount_point) : M unit :=
  let '(to, len) := snprintf PATH_BUF (root +++ "/" +++ mp_target mnt) in
  exit_if (Nat.leb PATH_BUF len) ;;
  r <- do_mount (mp_source mnt) to (mp_type mnt) (mp_flags mnt) ;;
  pexit_if (is_some r).

(** The body of the [readdir] loop of [mount_sys]. *)
Definition mount_controller (root : string) (d : dirent) : M unit :=
  if negb (Nat.eqb (d_type d) DT_DIR) then ret tt
  else if String.eqb (d_name d) "." then ret tt
  else if String.eqb (d_name d) ".." then ret tt
  else
    let '(to, len) := snprintf PATH_BUF ("sys/fs/cgroup/" +++ d_name d) in
    exit_if (Nat.leb PATH_BUF len) ;;
    mount_at root (mk_mp to to "bind" MS_BIND).

(** Reading the directory: the entries visible at [path] now. *)
Definition read_dir (path : string) : M (list dirent) :=
  fun s => (Ok (visible_entries env (events s) path),
            mkSt (exit_err s) (cur s) (events s ++ [(cur s, OProbe "readdir" path)])).

(** The cgroup-v1 branch, after the early returns of [mount_sys]. *)
Definition mount_sys_legacy (root : string) : M unit :=
  for_each sys_bind_table (mount_at root) ;;
  let '(to, len) := snprintf PATH_BUF (root +++ "/" +++ "sys/fs/cgroup") in
  exit_if (Nat.leb PATH_BUF len) ;;
  ok <- syscall (OProbe "opendir" to) (sys_opendir env to) ;;
  pexit_if (negb ok) ;;
  ents <- read_dir to ;;
  for_each ents (mount_controller root) ;;
  pexit_if (readdir_err env to) ;;
  c <- syscall (OProbe "closedir" to) (sys_closedir env) ;;
  pexit_if (negb c).

(** Reading [/proc/1/uid_map]: returns [true] when [mount_sys] returns
    after the recursive bind mount of a nested user namespace. *)
Definition check_uid_map (root : string) : M bool :=
  ex <- syscall (OProbe "access" "/proc/1/uid_map") (sys_access env "/proc/1/uid_map") ;;
  if negb ex then ret false
  else
    fo <- syscall (OProbe "fopen" "/proc/1/uid_map") (uidmap_fopen env) ;;
    pexit_if (negb fo) ;;
    kv <- syscall (OProbe "fscanf" "/proc/1/uid_map") (fscanf_uid_map (uidmap_text env)) ;;
    fc <- syscall (OProbe "fclose" "/proc/1/uid_map") (uidmap_fclose env) ;;
    pexit_if (negb fc) ;;
    pexit_if (negb (Z.eqb (fst kv) 3)) ;;
    let uid_base := nth 0 (snd kv) 0 in
    let uid_shift := nth 1 (snd kv) 0 in
    let uid_range := nth 2 (snd kv) 0 in
    if (negb (uid_base =? 0) || negb (uid_shift =? 0) || negb (uid_range =? UNMAPPED))%bool
    then mount_at root mnt_rec ;; ret true
    else ret false.

(** [static void mount_sys(const char *root)] *)
Definition mount_sys (root : string) : M unit :=
  fs <- syscall (OProbe "statfs" "/sys/fs/cgroup") (statfs_cgroup env) ;;
  pexit_if (negb (is_some fs)) ;;
  let f_type := match fs with Some t => t | None => 0%Z end in
  if Z.eqb f_type CGROUP2_SUPER_MAGIC then mount_at root mnt_rec
  else
    done <- check_uid_map root ;;
    if done then ret tt else mount_sys_legacy root.

End Engine.

(** ** The Hosts Synthesizer *)

Fixpoint str_drop (n : nat) (s : string) : string :=
  match n, s with
  | O, _ => s
  | S _, EmptyString => EmptyString
  | S n', String _ r => str_drop n' r
  end.

Definition MACHINE_ID_LEN : nat := String.length "0123456789abcdef0123456789ab".
Definition MACHINE_NAME_LEN : nat := String.length "rkt-01234567-89ab-cdef-0123-456789ab".

(** [char buf[MACHINE_ID_LEN + 1]] after [read(fd, buf, MACHINE_ID_LEN)] on
    a regular file: the bytes read, then the bytes [buf] held before. *)
Definition machine_id_buf (contents buf0 : string) : string :=
  let got := substring 0 MACHINE_ID_LEN contents in
  got +++ substring (String.length got) (S MACHINE_ID_LEN - String.length got) buf0.

(** ["rkt-%.8s-%.4s-%.4s-%.4s-%.8s", buf, buf+8, buf+12, buf+16, buf+20] *)
Definition machine_name_text (buf : string) : string :=
  "rkt-" +++ prec_s 8 buf +++ "-" +++ prec_s 4 (str_drop 8 buf) +++ "-"
  +++ prec_s 4 (str_drop 12 buf) +++ "-" +++ prec_s 4 (str_drop 16 buf) +++ "-"
  +++ prec_s 8 (str_drop 20 buf).

(** ["%s\t%s\t%s\t%s\n", "127.0.0.1", name, "localhost", "localhost.localdomain"] *)
Definition hosts_text (name : string) : string :=
  "127.0.0.1" +++ TAB +++ name +++ TAB +++ "localhost" +++ TAB
  +++ "localhost.localdomain" +++ NL.

Definition HOSTS_BUF : nat := 128.

Section Engine2.

Variable env : Env.

(** [static int get_machine_name(char *out, int out_len)]; [None] is the
    [return 0] of its [_fail] labels. *)
Definition get_machine_name (out_len : nat) : M (option string) :=
  fo <- syscall (OProbe "open" "/etc/machine-id") (mid_open env) ;;
  if negb fo then ret None
  else
    rd <- syscall (OProbe "read" "/etc/machine-id") (mid_read_ok env) ;;
    if negb rd then syscall (OProbe "close" "/etc/machine-id") tt ;; ret None
    else
      c <- syscall (OProbe "close" "/etc/machine-id") (mid_close env) ;;
      if negb c then ret None
      else
        let buf := machine_id_buf (mid_contents env) (mid_buf0 env) in
        let '(name, len) := snprintf out_len (machine_name_text buf) in
        if Nat.leb out_len len then ret None else ret (Some name).

(** [static int ensure_etc_hosts_exists(const char *root, int rootfd)] *)
Definition ensure_etc_hosts_exists (root : string) : M bool :=
  ex <- syscall (OProbe "faccessat" "etc/hosts") (sys_faccessat env "etc/hosts") ;;
  if ex then ret true
  else
    nm <- get_machine_name (S MACHINE_NAME_LEN) ;;
    match nm with
    | None => ret false
    | Some name =>
        let '(hosts, len) := snprintf HOSTS_BUF (hosts_text name) in
        if Nat.leb HOSTS_BUF len then ret false
        else
          fo <- (if hosts_open env then syscall (OCreate "etc/hosts") true
                 else syscall (OProbe "openat" "etc/hosts") false) ;;
          if negb fo then ret false
          else
            wr <- syscall (OWrite "etc/hosts" (substring 0 len hosts)) (hosts_write_ok env) ;;
            if negb wr then syscall (OProbe "close" "etc/hosts") tt ;; ret false
            else
              c <- syscall (OProbe "close" "etc/hosts") (hosts_close env) ;;
              if negb c then ret false else ret true
    end.

(** ** The steps of [main] *)

Definition setup (root : string) : M unit :=
  r <- do_mount env root root "bind" (N.lor MS_BIND MS_REC) ;;
  pexit_if (is_some r) ;;
  fd <- syscall (OProbe "open" root) (sys_open_root env) ;;
  pexit_if (negb fd).

Definition unlink_step (p : string) : M unit :=
  r <- syscall (OUnlink p) (sys_unlinkat env p) ;;
  pexit_if (match r with
            | None => false
            | Some e => (negb (errno_eqb e ENOENT) && negb (errno_eqb e EISDIR))%bool
            end).

Definition mkdir_step (d : string * N) : M unit :=
  r <- syscall (OMkdir (fst d) (snd d)) (sys_mkdirat env (fst d)) ;;
  pexit_if (match r with None => false | Some e => negb (errno_eqb e EEXIST) end).

Definition skeleton : M unit :=
  for_each unlink_paths unlink_step ;;
  for_each dirs mkdir_step.

(** [ensure_etc_hosts_exists], then [close(rootfd)] (its result unused). *)
Definition hosts_step (root : string) : M unit :=
  ok <- ensure_etc_hosts_exists root ;;
  exit_if (negb ok) ;;
  syscall (OProbe "close" root) tt.

(** The body of the [devnodes] loop. *)
Definition devnode_step (root from : string) : M unit :=
  ex <- syscall (OProbe "access" from) (sys_access env from) ;;
  if negb ex then ret tt
  else
    let '(to, len) := snprintf PATH_BUF (root +++ from) in
    exit_if (Nat.leb PATH_BUF len) ;;
    (if sys_open_creat env to
     then syscall (OCreate to) tt ;; syscall (OProbe "close" to) tt
     else syscall (OProbe "open" to) tt) ;;
    r <- do_mount env from to "bind" MS_BIND ;;
    pexit_if (is_some r).

Definition dev_mounts (root : string) : M unit :=
  for_each devnodes (devnode_step root) ;;
  for_each dirs_mount_table (mount_at env root).

(** The body of the [files_mount_table] loop. *)
Definition file_step (root : string) (mnt : mount_point) : M unit :=
  let '(to, len) := snprintf PATH_BUF (root +++ "/" +++ mp_target mnt) in
  exit_if (Nat.leb PATH_BUF len) ;;
  src <- syscall (OProbe "access" (mp_source mnt)) (sys_access env (mp_source mnt)) ;;
  if negb src then ret tt
  else
    dst <- syscall (OProbe "access" to) (sys_access env to) ;;
    (if negb dst then
       c <- (if sys_creat env to then syscall (OCreate to) true
             else syscall (OProbe "creat" to) false) ;;
       pexit_if (negb c) ;;
       cl <- syscall (OProbe "close" to) (sys_close env to) ;;
       pexit_if (negb cl)
     else ret tt) ;;
    r <- do_mount env (mp_source mnt) to (mp_type mnt) (mp_flags mnt) ;;
    pexit_if (is_some r).

(** [snprintf(to, sizeof(to), "%s/dev/ptmx", root)]; [symlink(target, to)]. *)
Definition symlink_step (root target name : string) : M unit :=
  let '(to, len) := snprintf PATH_BUF (root +++ name) in
  exit_if (Nat.leb PATH_BUF len) ;;
  r <- syscall (OSymlink target to) (sys_symlink env target to) ;;
  pexit_if (match r with None => false | Some e => negb (errno_eqb e EEXIST) end).

Definition file_mounts (root : string) : M unit :=
  for_each files_mount_table (file_step root) ;;
  symlink_step root "/dev/pts/ptmx" "/dev/ptmx" ;;
  symlink_step root "/run/systemd/journal/dev-log" "/dev/log".

(** [int main(int argc, char *argv[])]; [args] is [argv]. *)
Definition main (args : list string) : M unit :=
  exit_if (Nat.ltb (length args) 2) ;;
  let root := nth 1 args "" in
  setup root ;;
  enter Skeleton ;; skeleton ;;
  enter Hosts ;; hosts_step root ;;
  enter DevMounts ;; dev_mounts root ;;
  enter SysMount ;; mount_sys env root ;;
  enter FileMounts ;; file_mounts root.

End Engine2.

(** ** Reading the trace *)

Definition is_prefix {A} (l full : list A) : Prop := exists r, l ++ r = full.

Definition is_mount (o : op) : bool := match o with OMount _ _ _ _ => true | _ => false end.

(** The mount system calls of a piece of trace. *)
Definition mount_ops (l : list event) : list op := filter is_mount (map snd l).

(** The targets of the mount system calls of a piece of trace. *)
Definition mount_targets (l : list event) : list string :=
  flat_map (fun e => match snd e with OMount _ tgt _ _ => [tgt] | _ => [] end) l.

(** The cgroup controllers a listing names: the directories other than
    [.] and [..]. *)
Definition controllers (ents : list dirent) : list string :=
  map d_name (filter (fun d => (Nat.eqb (d_type d) DT_DIR
                               && negb (String.eqb (d_name d) ".")
                               && negb (String.eqb (d_name d) ".."))%bool) ents).

(** A hexadecimal digit, as [/etc/machine-id] holds them. *)
Definition is_hex (c : ascii) : bool :=
  let n := nat_of_ascii c in
  ((Nat.leb 48 n && Nat.leb n 57) || (Nat.leb 97 n && Nat.leb n 102)
   || (Nat.leb 65 n && Nat.leb n 70))%bool.

(** The host name for a 28-character machine-id prefix [id]: its
    characters split 8-4-4-4-8 after the tag [rkt-]. *)
Definition name_of_id (id : string) : string :=
  "rkt-" +++ substring 0 8 id +++ "-" +++ substring 8 4 id +++ "-"
  +++ substring 12 4 id +++ "-" +++ substring 16 4 id +++ "-" +++ substring 20 8 id.

(** A step that mounts on the resolved path [to] only: every mount it
    issues has [to] itself as target, and [to] fits in the [PATH_BUF]
    buffer; when the step acts ([acts]) and [to] does not fit, it exits. *)
Definition resolved_step (m : M unit) (to : string) (acts : bool) (s : St) : Prop :=
  let '(o, s') := m s in
  exists l, events s' = events s ++ l /\
    Forall (fun t => t = to /\ (String.length to < PATH_BUF)%nat) (mount_targets l) /\
    ((acts && Nat.leb PATH_BUF (String.length to))%bool = true -> exists code, o = Exit code).

(** The mounts of one controller entry. *)
Definition controller_mounts (root : string) (d : dirent) : list op :=
  if (Nat.eqb (d_type d) DT_DIR && negb (String.eqb (d_name d) ".")
      && negb (String.eqb (d_name d) ".."))%bool
  then [OMount ("sys/fs/cgroup/" +++ d_name d) (root +++ "/" +++ "sys/fs/cgroup/" +++ d_name d)
               "bind" MS_BIND]
  else [].

(** The rank of a component in the order [main] runs them. *)
Definition rank (c : comp) : nat :=
  match c with
  | Setup => 0 | Skeleton => 1 | Hosts => 2 | DevMounts => 3 | SysMount => 4 | FileMounts => 5
  end.

(** The components of the design's "Device & File Bind-Mounter". *)
Definition dev_file_comp (c : comp) : bool :=
  match c with DevMounts | FileMounts => true | _ => false end.

(** ** Sample hosts

    A cgroup-v1 listing of [/sys/fs/cgroup] as found on a systemd host,
    with the symlinks [cpu] and [cpuacct] to the joint controller. *)
Definition DT_LNK : nat := 10.

Definition cg_listing : list dirent :=
  [ mk_dirent "." DT_DIR; mk_dirent ".." DT_DIR; mk_dirent "cpu" DT_LNK;
    mk_dirent "cpu,cpuacct" DT_DIR; mk_dirent "cpuacct" DT_LNK;
    mk_dirent "memory" DT_DIR; mk_dirent "systemd" DT_DIR ].

(** A host where every call succeeds, except that [/dev/net/tun] is
    missing; [rerun] makes the root already prepared (the skeleton, the
    hosts file and the symlinks exist); [placeholder_ok] is the result of
    the [open] creating the device placeholders. *)
Definition sample_env (ftype : Z) (uid_text : string) (rerun placeholder_ok : bool) : Env := {|
  sys_mount := fun _ _ _ => None;
  sys_open_root := true;
  sys_unlinkat := fun p => if rerun then (if String.eqb p "dev/shm" then Some EISDIR else None)
                           else Some ENOENT;
  sys_mkdirat := fun _ => if rerun then Some EEXIST else None;
  sys_faccessat := fun _ => rerun;
  mid_open := true; mid_read_ok := true;
  mid_contents := "0123456789abcdef0123456789abcdef" +++ NL;
  mid_buf0 := ""; mid_close := true;
  hosts_open := true; hosts_write_ok := true; hosts_close := true;
  sys_access := fun p => negb (String.eqb p "/dev/net/tun");
  sys_open_creat := fun _ => placeholder_ok;
  sys_creat := fun _ => true; sys_close := fun _ => true;
  statfs_cgroup := Some ftype;
  uidmap_fopen := true; uidmap_text := uid_text; uidmap_fclose := true;
  host_dir := fun p => if String.eqb p "/sys/fs/cgroup" then cg_listing else [];
  stage2_dir := fun _ => [];
  sys_opendir := fun _ => true; readdir_err := fun _ => false; sys_closedir := true;
  sys_symlink := fun _ _ => if rerun then Some EEXIST else None |}.

(** A host whose cgroup mount and [/proc/1/uid_map] are given: the rest is
    as in [sample_env] for a first run. *)
Definition cgroup_host_env (statfs : option Z) (has_uid_map fopen_ok fclose_ok opendir_ok : bool) : Env := {|
  sys_mount := fun _ _ _ => None;
  sys_open_root := true;
  sys_unlinkat := fun _ => Some ENOENT;
  sys_mkdirat := fun _ => None;
  sys_faccessat := fun _ => false;
  mid_open := true; mid_read_ok := true;
  mid_contents := "0123456789abcdef0123456789abcdef" +++ NL;
  mid_buf0 := ""; mid_close := true;
  hosts_open := true; hosts_write_ok := true; hosts_close := true;
  sys_access := fun p => if String.eqb p "/proc/1/uid_map" then has_uid_map
                         else negb (String.eqb p "/dev/net/tun");
  sys_open_creat := fun _ => true;
  sys_creat := fun _ => true; sys_close := fun _ => true;
  statfs_cgroup := statfs;
  uidmap_fopen := fopen_ok; uidmap_text := "         0          0 4294967295" +++ NL;
  uidmap_fclose := fclose_ok;
  host_dir := fun p => if String.eqb p "/sys/fs/cgroup" then cg_listing else [];
  stage2_dir := fun _ => [];
  sys_opendir := fun _ => opendir_ok; readdir_err := fun _ => false; sys_closedir := true;
  sys_symlink := fun _ _ => None |}.

Definition ID_UID_MAP : string := "         0          0 4294967295" +++ NL.
Definition NESTED_UID_MAP : string := "         0     100000      65536" +++ NL.

(** ** Readings of the model used by the further properties *)

(** [p] is a prefix of [t]. *)
Definition str_prefix (p t : string) : Prop := exists r, t = p +++ r.

(** Where an operation may act when the container root is [root]: mounts
    and symlinks on paths under [root]; [unlinkat], [mkdirat] and
    [openat] relative to the root descriptor, on the names of the tables
    and on [etc/hosts]. Probes change nothing. *)
Definition confined (root : string) (o : op) : Prop :=
  match o with
  | OMount _ tgt _ _ => str_prefix root tgt
  | OUnlink p => In p unlink_paths
  | OMkdir p _ => In p (map fst dirs)
  | OCreate p => p = "etc/hosts" \/ str_prefix root p
  | OWrite p _ => p = "etc/hosts"
  | OSymlink _ l => str_prefix root l
  | OProbe _ _ => True
  end.

(** Every operation [m] adds to the trace is confined. *)
Definition confined_m {A} (root : string) (m : M A) : Prop :=
  forall s, exists l, events (snd (m s)) = events s ++ l /\
                      Forall (fun e => confined root (snd e)) l.

(** The [errno] values the [unlink_paths] and [dirs] loops of [main] let pass. *)
Definition unlink_tolerated (r : option errno) : bool :=
  match r with None => true | Some e => (errno_eqb e ENOENT || errno_eqb e EISDIR)%bool end.
Definition mkdir_tolerated (r : option errno) : bool :=
  match r with None => true | Some e => errno_eqb e EEXIST end.


(** Decimal numerals, as the kernel prints the fields of [/proc/1/uid_map]. *)
Definition digit_char (d : N) : ascii := ascii_of_N (48 + d).
Fixpoint dec_string (ds : list N) : string :=
  match ds with [] => EmptyString | d :: r => String (digit_char d) (dec_string r) end.
Definition dec_value (ds : list N) : N := fold_left (fun a d => a * 10 + d)%N ds 0%N.
Definition uint_digits (ds : list N) : bool :=
  (negb (match ds with [] => true | _ => false end)
   && forallb (fun d => d <? 10)%N ds && (dec_value ds <? 2 ^ 32)%N)%bool.
Fixpoint blank (w : string) : bool :=
  match w with EmptyString => true | String c r => (is_space c && blank r)%bool end.
Definition ends_number (r : string) : bool :=
  match r with EmptyString => true | String c _ => negb (is_some (digit_val c)) end.


(** ** Generic lemmas on the monad *)

Local Open Scope nat_scope.

Lemma bind_Ok {A B} (m : M A) (k : A -> M B) s a s' :
  m s = (Ok a, s') -> bind m k s = k a s'.
Proof. intros H; unfold bind; rewrite H; reflexivity. Qed.

Lemma bind_Exit {A B} (m : M A) (k : A -> M B) s c s' :
  m s = (Exit c, s') -> bind m k s = (Exit c, s').
Proof. intros H; unfold bind; rewrite H; reflexivity. Qed.

Lemma app_assoc_cons {A} (l1 l2 : list A) x : l1 ++ x :: l2 = (l1 ++ [x]) ++ l2.
Proof. rewrite <- app_assoc; reflexivity. Qed.

Lemma substring_0_full (n : nat) (s : string) :
  (String.length s <= n)%nat -> substring 0 n s = s.
Proof.
  revert n; induction s as [|c r IH]; intros n Hn; destruct n; cbn in *; try lia; auto.
  f_equal; apply IH; lia.
Qed.

Ltac mstep :=
  cbv beta iota zeta delta [bind ret syscall emit exit_if pexit_if enter snprintf fst snd
       events cur exit_err for_each is_some negb andb orb
       mp_source mp_target mp_type mp_flags mnt_rec sys_bind_table];
  cbn [nth].

(** Settle a path-length check [snprintf(...) >= sizeof(to)]. *)
Ltac path_check :=
  match goal with
  | |- context [Nat.leb PATH_BUF (String.length ?x)] =>
      let E := fresh "Hlen" in
      destruct (Nat.leb PATH_BUF (String.length x)) eqn:E;
      [apply Nat.leb_le in E | apply Nat.leb_gt in E;
       rewrite (substring_0_full (PATH_BUF - 1) x) by (unfold PATH_BUF in *; lia)]
  end.

Ltac split_ifs :=
  repeat (mstep; match goal with
         | |- context [Nat.leb PATH_BUF (String.length _)] => path_check
         | |- context [if ?c then _ else _] =>
             lazymatch c with
             | context [if _ then _ else _] => fail
             | _ => let E := fresh "E" in destruct c eqn:E
             end
         | |- context [is_some ?c] =>
             let E := fresh "E" in destruct c eqn:E
         | |- context [match ?c with Some _ => _ | None => _ end] =>
             lazymatch c with
             | context [match _ with _ => _ end] => fail
             | _ => let E := fresh "E" in destruct c eqn:E
             end
         end); mstep.

Lemma bind_Ok_inv {A B} (m : M A) (k : A -> M B) s b s' :
  bind m k s = (Ok b, s') -> exists a s1, m s = (Ok a, s1) /\ k a s1 = (Ok b, s').
Proof.
  unfold bind; destruct (m s) as [[a|c] s1]; intros H; [eauto | discriminate].
Qed.

Lemma mount_ops_app l1 l2 : mount_ops (l1 ++ l2) = mount_ops l1 ++ mount_ops l2.
Proof. unfold mount_ops; rewrite map_app, filter_app; reflexivity. Qed.

Lemma mount_targets_app l1 l2 : mount_targets (l1 ++ l2) = mount_targets l1 ++ mount_targets l2.
Proof. unfold mount_targets; apply flat_map_app. Qed.

(** A loop whose body, when it returns, issues the mounts [g x]. *)
Lemma for_each_mounts {A} (xs : list A) (f : A -> M unit) (g : A -> list op) :
  (forall x s s1, f x s = (Ok tt, s1) ->
     exists l, events s1 = events s ++ l /\ mount_ops l = g x) ->
  forall s s', for_each xs f s = (Ok tt, s') ->
  exists l, events s' = events s ++ l /\ mount_ops l = flat_map g xs.
Proof.
  intros Hf; induction xs as [|x xs IH]; intros s s' H; cbn in H.
  - inversion H; subst; exists []; split; [rewrite app_nil_r|]; reflexivity.
  - apply bind_Ok_inv in H as ([] & s1 & H1 & H2).
    destruct (Hf _ _ _ H1) as (l1 & E1 & M1).
    destruct (IH _ _ H2) as (l2 & E2 & M2).
    exists (l1 ++ l2); split.
    + rewrite E2, E1, app_assoc; reflexivity.
    + rewrite mount_ops_app, M1, M2; reflexivity.
Qed.

(** *** Computations that stay in one component

    Every computation of the file other than [enter] and [main] only
    appends to the trace, and only events of the current component. *)

Definition stays {A} (m : M A) : Prop :=
  forall s, cur (snd (m s)) = cur s /\
    exists l, events (snd (m s)) = events s ++ l /\ Forall (fun e => fst e = cur s) l.

Lemma stays_ret {A} (a : A) : stays (ret a).
Proof. intros s; split; [reflexivity|]; exists []; rewrite app_nil_r; auto. Qed.

Lemma stays_emit o : stays (emit o).
Proof. intros s; split; [reflexivity|]; eexists; split; [reflexivity|]; repeat constructor. Qed.

Lemma stays_exit_if c : stays (exit_if c).
Proof.
  intros s; unfold exit_if; destruct c; (split; [reflexivity|]);
    exists []; rewrite app_nil_r; auto.
Qed.

Lemma stays_bind {A B} (m : M A) (k : A -> M B) :
  stays m -> (forall a, stays (k a)) -> stays (bind m k).
Proof.
  intros Hm Hk s; unfold bind.
  destruct (Hm s) as [C1 (l1 & E1 & F1)].
  destruct (m s) as [[a|c] s1]; cbn in *.
  - destruct (Hk a s1) as [C2 (l2 & E2 & F2)].
    split; [congruence|]. exists (l1 ++ l2); split.
    + rewrite E2, E1, app_assoc; reflexivity.
    + apply Forall_app; split; [auto|]. rewrite <- C1; exact F2.
  - split; [exact C1|]; eauto.
Qed.

Lemma stays_syscall {A} o (r : A) : stays (syscall o r).
Proof. apply stays_bind; [apply stays_emit | intros; apply stays_ret]. Qed.

Lemma stays_for_each {A} (xs : list A) f :
  (forall x, stays (f x)) -> stays (for_each xs f).
Proof.
  intros Hf; induction xs; cbn; [apply stays_ret | apply stays_bind; auto].
Qed.

Ltac prove_stays :=
  repeat first
    [ apply stays_bind; [|intro]
    | apply stays_ret | apply stays_emit | apply stays_exit_if | apply stays_syscall
    | apply stays_for_each; intro
    | progress cbv zeta
    | match goal with
      | |- stays (if ?c then _ else _) => destruct c
      | |- stays (match ?x with _ => _ end) => destruct x
      end ].

Lemma stays_read_dir env p : stays (read_dir env p).
Proof.
  intros s; split; [reflexivity|]; eexists; split; [reflexivity|]; repeat constructor.
Qed.

Lemma stays_mount_at env root mnt : stays (mount_at env root mnt).
Proof. unfold mount_at, do_mount; prove_stays. Qed.

Lemma stays_mount_sys env root : stays (mount_sys env root).
Proof.
  unfold mount_sys, check_uid_map, mount_sys_legacy, mount_controller.
  prove_stays; apply stays_mount_at || apply stays_read_dir.
Qed.

Lemma stays_get_machine_name env n : stays (get_machine_name env n).
Proof. unfold get_machine_name; prove_stays. Qed.

Lemma stays_hosts_step env root : stays (hosts_step env root).
Proof.
  unfold hosts_step, ensure_etc_hosts_exists; prove_stays; apply stays_get_machine_name.
Qed.

Lemma stays_setup env root : stays (setup env root).
Proof. unfold setup, do_mount; prove_stays. Qed.

Lemma stays_skeleton env : stays (skeleton env).
Proof. unfold skeleton, unlink_step, mkdir_step; prove_stays. Qed.

Lemma stays_dev_mounts env root : stays (dev_mounts env root).
Proof. unfold dev_mounts, devnode_step, do_mount; prove_stays; apply stays_mount_at. Qed.

Lemma stays_file_mounts env root : stays (file_mounts env root).
Proof. unfold file_mounts, file_step, symlink_step, do_mount; prove_stays. Qed.

(** *** The order of the components in a run of [main] *)

Definition rank_le (a b : comp) : Prop := rank a <= rank b.

Definition ordered (s : St) : Prop :=
  StronglySorted rank_le (map fst (events s) ++ [cur s]).

Lemma SS_app {A} (R : A -> A -> Prop) l1 l2 :
  StronglySorted R (l1 ++ l2) <->
  StronglySorted R l1 /\ StronglySorted R l2 /\ (forall x y, In x l1 -> In y l2 -> R x y).
Proof.
  induction l1 as [|a l1 IH]; cbn.
  - split; [intros H; split; [constructor | split; [exact H | intros x y []]] | tauto].
  - split.
    + intros H; inversion H as [|? ? H1 H2]; subst.
      apply IH in H1 as (S1 & S2 & HR).
      rewrite Forall_forall in H2.
      repeat split; auto.
      * constructor; auto. rewrite Forall_forall; intros; apply H2, in_or_app; auto.
      * intros x y [<-|Hx] Hy; [apply H2, in_or_app; auto | auto].
    + intros (S1 & S2 & HR); inversion S1 as [|? ? S1' F1]; subst.
      constructor; [apply IH; repeat split; auto|].
      rewrite Forall_forall in *; intros y Hy; apply in_app_or in Hy as [Hy|Hy]; auto.
Qed.

Lemma SS_nth {A} (R : A -> A -> Prop) l i j x y :
  StronglySorted R l -> (i < j)%nat -> nth_error l i = Some x -> nth_error l j = Some y -> R x y.
Proof.
  revert i j; induction l as [|a l IH]; intros i j H Hij Hi Hj;
    [destruct i; discriminate|].
  inversion H as [|? ? H1 H2]; subst.
  destruct i, j; cbn in *; try lia.
  - inversion Hi; subst. rewrite Forall_forall in H2; apply H2.
    eapply nth_error_In; eauto.
  - apply (IH i j); auto; lia.
Qed.

Definition keeps {A} (a b : nat) (m : M A) : Prop :=
  forall s, ordered s -> rank (cur s) <= a ->
    ordered (snd (m s)) /\ rank (cur (snd (m s))) <= b.

Lemma stays_keeps {A} (m : M A) a : stays m -> keeps a a m.
Proof.
  intros Hm s Ho Ha; destruct (Hm s) as [C (l & E & F)].
  rewrite C; split; [|exact Ha].
  unfold ordered in *; rewrite E, C, map_app, <- app_assoc.
  apply SS_app in Ho as (S1 & S2 & HR).
  apply SS_app; repeat split; auto.
  - apply SS_app; repeat split; auto.
    + clear -F; induction F as [|e l He F IH]; cbn; constructor; auto.
      rewrite Forall_forall; intros y Hy; apply in_map_iff in Hy as (e' & <- & He').
      rewrite Forall_forall in F; rewrite (F _ He'), He; unfold rank_le; lia.
    + intros x y Hx [<-|[]]; apply in_map_iff in Hx as (e & <- & He).
      rewrite Forall_forall in F; rewrite (F _ He); unfold rank_le; lia.
  - intros x y Hx Hy; apply in_app_or in Hy as [Hy|[<-|[]]].
    + apply in_map_iff in Hy as (e & <- & He); rewrite Forall_forall in F; rewrite (F _ He).
      apply HR; auto; left; reflexivity.
    + apply HR; auto; left; reflexivity.
Qed.

Lemma enter_keeps a c : a <= rank c -> keeps a (rank c) (enter c).
Proof.
  intros Hac s Ho Ha; cbn; split; [|lia].
  unfold ordered in *; cbn.
  apply SS_app in Ho as (S1 & S2 & HR); apply SS_app; repeat split; auto.
  - constructor; constructor.
  - intros x y Hx [<-|[]]; specialize (HR x (cur s) Hx (or_introl eq_refl)).
    unfold rank_le in *; lia.
Qed.

Lemma keeps_bind {A B} a b c (m : M A) (k : A -> M B) :
  b <= c -> keeps a b m -> (forall x, keeps b c (k x)) -> keeps a c (bind m k).
Proof.
  intros Hbc Hm Hk s Ho Ha; unfold bind.
  destruct (Hm s Ho Ha) as [O1 R1]; destruct (m s) as [[x|code] s1]; cbn in *.
  - apply Hk; auto.
  - split; [auto | lia].
Qed.

Lemma keeps_main env args : keeps 0 5 (main env args).
Proof.
  unfold main.
  apply (keeps_bind 0 0); [lia | apply stays_keeps, stays_exit_if | intros _].
  apply (keeps_bind 0 0); [lia | apply stays_keeps, stays_setup | intros _].
  apply (keeps_bind 0 1); [lia | apply (enter_keeps 0 Skeleton); cbn; lia | intros _].
  apply (keeps_bind 1 1); [lia | apply stays_keeps, stays_skeleton | intros _].
  apply (keeps_bind 1 2); [lia | apply (enter_keeps 1 Hosts); cbn; lia | intros _].
  apply (keeps_bind 2 2); [lia | apply stays_keeps, stays_hosts_step | intros _].
  apply (keeps_bind 2 3); [lia | apply (enter_keeps 2 DevMounts); cbn; lia | intros _].
  apply (keeps_bind 3 3); [lia | apply stays_keeps, stays_dev_mounts | intros _].
  apply (keeps_bind 3 4); [lia | apply (enter_keeps 3 SysMount); cbn; lia | intros _].
  apply (keeps_bind 4 4); [lia | apply stays_keeps, stays_mount_sys | intros _].
  apply (keeps_bind 4 5); [lia | apply (enter_keeps 4 FileMounts); cbn; lia | intros _].
  intros s Ho Ha; destruct (stays_keeps _ 5 (stays_file_mounts env (nth 1 args "")) s Ho Ha); auto.
Qed.

(** *** Computations that only append to the trace *)

Definition grows {A} (m : M A) : Prop :=
  forall s, exists l, events (snd (m s)) = events s ++ l.

Lemma grows_of_stays {A} (m : M A) : stays m -> grows m.
Proof. intros H s; destruct (H s) as [_ (l & E & _)]; eauto. Qed.

Lemma grows_enter c : grows (enter c).
Proof. intros s; exists []; rewrite app_nil_r; reflexivity. Qed.

Lemma grows_bind {A B} (m : M A) (k : A -> M B) :
  grows m -> (forall a, grows (k a)) -> grows (bind m k).
Proof.
  intros Hm Hk s; unfold bind; destruct (Hm s) as [l1 E1].
  destruct (m s) as [[a|c] s1]; cbn in *; [|eauto].
  destruct (Hk a s1) as [l2 E2]; exists (l1 ++ l2); rewrite E2, E1, app_assoc; reflexivity.
Qed.

(** The part of [main] after the root is opened. *)
Lemma grows_main_tail env root :
  grows (enter Skeleton ;; skeleton env ;;
         enter Hosts ;; hosts_step env root ;;
         enter DevMounts ;; dev_mounts env root ;;
         enter SysMount ;; mount_sys env root ;;
         enter FileMounts ;; file_mounts env root).
Proof.
  repeat (apply grows_bind;
    [ first [ apply grows_enter | apply grows_of_stays;
              first [ apply stays_skeleton | apply stays_hosts_step | apply stays_dev_mounts
                    | apply stays_mount_sys ] ]
    | intros _ ]).
  apply grows_of_stays, stays_file_mounts.
Qed.

(** *** The host name *)

Lemma length_append_str (a b : string) :
  String.length (a +++ b) = String.length a + String.length b.
Proof. induction a as [|c a IH]; cbn; auto. Qed.

Lemma is_hex_not_nul c : is_hex c = true -> Ascii.eqb c NUL = false.
Proof.
  intros H; destruct (Ascii.eqb_spec c NUL) as [->|]; [discriminate H | reflexivity].
Qed.

Lemma machine_name_of_hex id rest buf0 :
  String.length id = 28 -> forallb is_hex (list_ascii_of_string id) = true ->
  machine_name_text (machine_id_buf (id +++ rest) buf0) = name_of_id id /\
  String.length (name_of_id id) = 36.
Proof.
  intros Hl Hh.
  do 28 (destruct id as [|?c id]; [discriminate Hl|]).
  destruct id; [|discriminate Hl].
  cbn in Hh.
  repeat match goal with H : andb _ _ = true |- _ => apply andb_prop in H as [? ?] end.
  repeat match goal with H : is_hex _ = true |- _ => apply is_hex_not_nul in H end.
  unfold machine_id_buf, machine_name_text, name_of_id, MACHINE_ID_LEN; cbn.
  change NUL with Ascii.zero in *.
  repeat match goal with H : Ascii.eqb _ _ = false |- _ => rewrite H end.
  split; reflexivity.
Qed.

Lemma for_each_ok {A} (xs : list A) (f : A -> M unit) :
  (forall x s, exists s', f x s = (Ok tt, s')) ->
  forall s, exists s', for_each xs f s = (Ok tt, s').
Proof.
  intros Hf; induction xs as [|x xs IH]; intros s; cbn.
  - eexists; reflexivity.
  - unfold bind; destruct (Hf x s) as [s1 ->]; apply IH.
Qed.

(** *** Successful runs of the [/sys] mounter *)

Lemma exit_if_Ok c s a s' :
  exit_if c s = (Ok a, s') -> c = false /\ s' = mkSt (S (exit_err s)) (cur s) (events s).
Proof. unfold exit_if; destruct c; intros H; inversion H; auto. Qed.

Lemma syscall_Ok {A} o (r : A) s a s' :
  syscall o r s = (Ok a, s') -> a = r /\ s' = mkSt (exit_err s) (cur s) (events s ++ [(cur s, o)]).
Proof. intros H; inversion H; auto. Qed.

Lemma read_dir_Ok env p s a s' :
  read_dir env p s = (Ok a, s') ->
  a = visible_entries env (events s) p /\
  s' = mkSt (exit_err s) (cur s) (events s ++ [(cur s, OProbe "readdir" p)]).
Proof. intros H; inversion H; auto. Qed.

Lemma mount_at_Ok env root mnt s s' :
  mount_at env root mnt s = (Ok tt, s') ->
  sys_mount env (mp_source mnt) (root +++ "/" +++ mp_target mnt) (mp_flags mnt) = None /\
  exit_err s' = S (S (exit_err s)) /\ cur s' = cur s /\
  events s' = events s ++ [(cur s, OMount (mp_source mnt) (root +++ "/" +++ mp_target mnt)
                                          (mp_type mnt) (mp_flags mnt))].
Proof.
  destruct s as [e0 c0 evs0]; unfold mount_at, do_mount; split_ifs;
    intros H; inversion H; subst; auto.
Qed.

Lemma mounted_source_last env E c src p ty fl c' q :
  sys_mount env src p fl = None ->
  mounted_source env ((E ++ [(c, OMount src p ty fl)]) ++ [(c', OProbe "opendir" q)]) p = Some src.
Proof.
  intros H; unfold mounted_source; rewrite !fold_left_app; cbn.
  rewrite String.eqb_refl, H; reflexivity.
Qed.

Lemma mount_controller_Ok env root d s s' :
  mount_controller env root d s = (Ok tt, s') ->
  exists l, events s' = events s ++ l /\ mount_ops l = controller_mounts root d.
Proof.
  unfold controller_mounts, mount_controller.
  destruct (Nat.eqb (d_type d) DT_DIR); cbn [negb andb];
    [|intros H; inversion H; subst; exists []; rewrite app_nil_r; auto].
  destruct (String.eqb (d_name d) "."); cbn [negb andb];
    [intros H; inversion H; subst; exists []; rewrite app_nil_r; auto|].
  destruct (String.eqb (d_name d) ".."); cbn [negb andb];
    [intros H; inversion H; subst; exists []; rewrite app_nil_r; auto|].
  destruct s as [e0 c0 evs0]; unfold mount_at, do_mount; split_ifs;
    intros H; inversion H; subst; eexists; (split; [repeat rewrite <- app_assoc; reflexivity | reflexivity]).
Qed.

Lemma flat_map_controller_mounts root ents :
  flat_map (controller_mounts root) ents =
  map (fun n => OMount ("sys/fs/cgroup/" +++ n) (root +++ "/" +++ "sys/fs/cgroup/" +++ n) "bind" MS_BIND)
      (controllers ents).
Proof.
  unfold controllers; induction ents as [|d ents IH]; cbn; auto.
  unfold controller_mounts at 1.
  destruct (_ && _)%bool; cbn; rewrite IH; reflexivity.
Qed.

Lemma mount_sys_legacy_Ok env root s s' :
  mount_sys_legacy env root s = (Ok tt, s') ->
  exists l, events s' = events s ++ l /\
    mount_ops l =
      [OMount "/sys" (root +++ "/" +++ "sys") "bind" MS_BIND;
       OMount "/sys/fs/cgroup" (root +++ "/" +++ "sys/fs/cgroup") "bind" MS_BIND] ++
      map (fun n => OMount ("sys/fs/cgroup/" +++ n) (root +++ "/" +++ "sys/fs/cgroup/" +++ n)
                           "bind" MS_BIND)
          (controllers (host_dir env "/sys/fs/cgroup")).
Proof.
  unfold mount_sys_legacy; intros H.
  apply bind_Ok_inv in H as ([] & s1 & Hb & H).
  cbn [for_each sys_bind_table] in Hb.
  apply bind_Ok_inv in Hb as ([] & s2 & Hm1 & Hb).
  apply bind_Ok_inv in Hb as ([] & s3 & Hm2 & Hb).
  inversion Hb; subst s3; clear Hb.
  apply mount_at_Ok in Hm1 as (M1 & _ & C1 & E1).
  apply mount_at_Ok in Hm2 as (M2 & _ & C2 & E2).
  cbn [mp_source mp_target mp_type mp_flags] in M1, E1, M2, E2.
  unfold snprintf in H; cbv beta iota in H.
  apply bind_Ok_inv in H as ([] & s4 & Hx & H).
  apply exit_if_Ok in Hx as (Hl & ->).
  apply Nat.leb_gt in Hl.
  rewrite (substring_0_full (PATH_BUF - 1)) in H by (unfold PATH_BUF in *; lia).
  apply bind_Ok_inv in H as (ok & s5 & Hx & H).
  apply syscall_Ok in Hx as (-> & ->).
  apply bind_Ok_inv in H as ([] & s6 & Hx & H).
  apply exit_if_Ok in Hx as (_ & ->).
  apply bind_Ok_inv in H as (ents & s7 & Hx & H).
  apply read_dir_Ok in Hx as (-> & ->).
  apply bind_Ok_inv in H as ([] & s8 & Hx & H).
  apply (for_each_mounts _ _ (controller_mounts root)) in Hx as (lc & Ec & Mc);
    [|intros d t t1 Ht; apply (mount_controller_Ok env root d t t1 Ht)].
  apply bind_Ok_inv in H as ([] & s9 & Hx & H).
  apply exit_if_Ok in Hx as (_ & ->).
  apply bind_Ok_inv in H as (c & s10 & Hx & H).
  apply syscall_Ok in Hx as (-> & ->).
  apply exit_if_Ok in H as (_ & ->).
  cbn [events cur exit_err] in *.
  rewrite E2, E1 in Ec. rewrite E2, E1, C1 in *.
  unfold visible_entries in Mc; rewrite (mounted_source_last _ _ _ _ _ _ _ _ _ M2) in Mc.
  rewrite flat_map_controller_mounts in Mc.
  rewrite Ec.
  exists ([(cur s, OMount "/sys" (root +++ "/" +++ "sys") "bind" MS_BIND);
           (cur s, OMount "/sys/fs/cgroup" (root +++ "/" +++ "sys/fs/cgroup") "bind" MS_BIND);
           (cur s1, OProbe "opendir" (root +++ "/" +++ "sys/fs/cgroup"));
           (cur s1, OProbe "readdir" (root +++ "/" +++ "sys/fs/cgroup"))] ++ lc ++
          [(cur s8, OProbe "closedir" (root +++ "/" +++ "sys/fs/cgroup"))]).
  split; [repeat rewrite <- app_assoc; reflexivity|].
  rewrite !mount_ops_app, Mc, app_nil_r; reflexivity.
Qed.

Lemma check_uid_map_identity env root s done s' :
  sys_access env "/proc/1/uid_map" = true ->
  fscanf_uid_map (uidmap_text env) = (3%Z, [0%N; 0%N; UNMAPPED]) ->
  check_uid_map env root s = (Ok done, s') ->
  done = false /\ exists l, events s' = events s ++ l /\ mount_ops l = [].
Proof.
  intros Hacc Hscan; destruct s as [e0 c0 evs0].
  unfold check_uid_map; mstep. rewrite Hacc; mstep. rewrite Hscan; mstep.
  split_ifs; intros H;
    try (match goal with E : _ = false |- _ => discriminate E end);
    inversion H; subst; split; auto;
    eexists; (split; [repeat rewrite <- app_assoc; reflexivity | reflexivity]).
Qed.

(** Closing a [resolved_step] goal once the step is run. *)
Ltac close_resolved :=
  first [ exists []; split; [symmetry; apply app_nil_r|]
        | eexists; split; [repeat rewrite <- app_assoc; reflexivity|] ]; split;
  [ cbn [mount_targets flat_map snd app];
    repeat (apply Forall_cons; [split; [reflexivity | assumption] |]); apply Forall_nil
  | intros ?H; first [discriminate H | eexists; reflexivity] ].

(** ** The claims *)

(** C10: the first operation of every run that gets past the usage check
    is [mount(root, root, "bind", MS_BIND|MS_REC, NULL)]; nothing (no
    unlink, no directory, no other mount) comes before it, and when it
    fails the run exits at once with code 2. *)
Theorem main_first_op_root_bind env args :
  let root := nth 1 args "" in
  let '(o, s') := main env args st0 in
  ((length args < 2)%nat /\ o = Exit 1 /\ events s' = []) \/
  (exists rest, events s' = (Setup, OMount root root "bind" (N.lor MS_BIND MS_REC)) :: rest /\
     (is_some (sys_mount env root root (N.lor MS_BIND MS_REC)) = true ->
      o = Exit 2 /\ rest = [])).
Proof.
  cbv zeta. unfold main.
  destruct (Nat.ltb (length args) 2) eqn:Hargs.
  - unfold bind, exit_if, st0; cbn.
    left; split; [apply Nat.ltb_lt; exact Hargs | auto].
  - rewrite (bind_Ok _ _ st0 tt (mkSt 1 Setup [])) by reflexivity.
    cbv beta zeta.
    set (root := nth 1 args "").
    destruct (sys_mount env root root (N.lor MS_BIND MS_REC)) eqn:Em.
    + rewrite (bind_Exit _ _ _ 2 (mkSt 2 Setup [(Setup, OMount root root "bind" (N.lor MS_BIND MS_REC))]))
        by (unfold setup, do_mount; mstep; rewrite Em; reflexivity).
      cbn; right; eexists; split; [reflexivity | auto].
    + destruct (sys_open_root env) eqn:Eo.
      * rewrite (bind_Ok _ _ _ tt (mkSt 3 Setup [(Setup, OMount root root "bind" (N.lor MS_BIND MS_REC));
                                                 (Setup, OProbe "open" root)]))
          by (unfold setup, do_mount; mstep; rewrite Em; mstep; rewrite Eo; reflexivity).
        destruct (grows_main_tail env root (mkSt 3 Setup [(Setup, OMount root root "bind" (N.lor MS_BIND MS_REC));
                                                 (Setup, OProbe "open" root)])) as [l El].
        match goal with |- let '(_, _) := ?m in _ => destruct m as [o s'] end.
        cbn in El |- *; right; exists ((Setup, OProbe "open" root) :: l); split; [exact El | discriminate].
      * rewrite (bind_Exit _ _ _ 3 (mkSt 3 Setup [(Setup, OMount root root "bind" (N.lor MS_BIND MS_REC));
                                                 (Setup, OProbe "open" root)]))
          by (unfold setup, do_mount; mstep; rewrite Em; mstep; rewrite Eo; reflexivity).
        cbn; right; eexists; split; [reflexivity | discriminate].
Qed.

(** C2: with the unified hierarchy, [mount_sys] issues exactly one mount,
    the recursive bind mount of [/sys] on [root/sys]: the only other call is
    the [statfs]; there is no per-controller mount and [/proc/1/uid_map] is
    not looked at.  (The mount is absent only when the path check exits.) *)
Theorem mount_sys_unified_single_rec_mount env root s :
  statfs_cgroup env = Some CGROUP2_SUPER_MAGIC ->
  let '(o, s') := mount_sys env root s in
  exists l, events s' = events s ++ l /\
    is_prefix l [(cur s, OProbe "statfs" "/sys/fs/cgroup");
                 (cur s, OMount "/sys" (root +++ "/" +++ "sys") "bind" (N.lor MS_BIND MS_REC))] /\
    (o = Ok tt -> l = [(cur s, OProbe "statfs" "/sys/fs/cgroup");
                 (cur s, OMount "/sys" (root +++ "/" +++ "sys") "bind" (N.lor MS_BIND MS_REC))]).
Proof.
  intros H. destruct s as [e0 c0 evs0].
  unfold mount_sys, mount_at, do_mount. mstep. rewrite H. mstep.
  rewrite Z.eqb_refl. split_ifs.
  all: eexists; split; [repeat rewrite <- app_assoc; reflexivity|];
    split; [eexists; cbn; reflexivity | try discriminate; intros; reflexivity].
Qed.

Lemma mount_sys_unified_single_rec_mount_witness :
  statfs_cgroup (sample_env CGROUP2_SUPER_MAGIC ID_UID_MAP false true) = Some CGROUP2_SUPER_MAGIC /\
  let '(o, s') := mount_sys (sample_env CGROUP2_SUPER_MAGIC ID_UID_MAP false true) "/r" st0 in
  exists l, events s' = events st0 ++ l /\
    is_prefix l [(Setup, OProbe "statfs" "/sys/fs/cgroup");
                 (Setup, OMount "/sys" ("/r" +++ "/" +++ "sys") "bind" (N.lor MS_BIND MS_REC))] /\
    (o = Ok tt -> l = [(Setup, OProbe "statfs" "/sys/fs/cgroup");
                 (Setup, OMount "/sys" ("/r" +++ "/" +++ "sys") "bind" (N.lor MS_BIND MS_REC))]).
Proof.
  split; [reflexivity|].
  exact (mount_sys_unified_single_rec_mount
           (sample_env CGROUP2_SUPER_MAGIC ID_UID_MAP false true) "/r" st0 eq_refl).
Defined.

(** C3: on a cgroup-v1 host, when [/proc/1/uid_map] exists and its first
    record [base shift range] has a non-zero base, a non-zero shift or a
    range other than [UNMAPPED], [mount_sys] issues exactly one mount, the
    recursive bind mount of [/sys], after reading the record; no
    per-controller mount follows. *)
Theorem mount_sys_nested_single_rec_mount env root s t b sh r :
  statfs_cgroup env = Some t -> Z.eqb t CGROUP2_SUPER_MAGIC = false ->
  sys_access env "/proc/1/uid_map" = true ->
  fscanf_uid_map (uidmap_text env) = (3%Z, [b; sh; r]) ->
  (b <> 0%N \/ sh <> 0%N \/ r <> UNMAPPED) ->
  let '(o, s') := mount_sys env root s in
  exists l, events s' = events s ++ l /\
    is_prefix l [(cur s, OProbe "statfs" "/sys/fs/cgroup");
                 (cur s, OProbe "access" "/proc/1/uid_map");
                 (cur s, OProbe "fopen" "/proc/1/uid_map");
                 (cur s, OProbe "fscanf" "/proc/1/uid_map");
                 (cur s, OProbe "fclose" "/proc/1/uid_map");
                 (cur s, OMount "/sys" (root +++ "/" +++ "sys") "bind" (N.lor MS_BIND MS_REC))] /\
    (o = Ok tt -> l = [(cur s, OProbe "statfs" "/sys/fs/cgroup");
                 (cur s, OProbe "access" "/proc/1/uid_map");
                 (cur s, OProbe "fopen" "/proc/1/uid_map");
                 (cur s, OProbe "fscanf" "/proc/1/uid_map");
                 (cur s, OProbe "fclose" "/proc/1/uid_map");
                 (cur s, OMount "/sys" (root +++ "/" +++ "sys") "bind" (N.lor MS_BIND MS_REC))]).
Proof.
  intros Hfs Ht Hacc Hscan Hnest. destruct s as [e0 c0 evs0].
  unfold mount_sys, check_uid_map, mount_at, do_mount. mstep.
  rewrite Hfs. mstep. rewrite Ht, Hacc. mstep. rewrite Hscan. mstep.
  split_ifs.
  all: repeat match goal with H : (_ =? _)%N = true |- _ => apply N.eqb_eq in H end; subst;
    try (exfalso; destruct Hnest as [H|[H|H]]; apply H; reflexivity).
  all: eexists; split; [repeat rewrite <- app_assoc; reflexivity|];
    split; [eexists; cbn; reflexivity | try discriminate; intros; reflexivity].
Qed.

Lemma mount_sys_nested_single_rec_mount_witness :
  let env := sample_env TMPFS_MAGIC NESTED_UID_MAP false true in
  fscanf_uid_map (uidmap_text env) = (3%Z, [0%N; 100000%N; 65536%N]) /\
  let '(o, s') := mount_sys env "/r" st0 in
  exists l, events s' = events st0 ++ l /\
    is_prefix l [(Setup, OProbe "statfs" "/sys/fs/cgroup");
                 (Setup, OProbe "access" "/proc/1/uid_map");
                 (Setup, OProbe "fopen" "/proc/1/uid_map");
                 (Setup, OProbe "fscanf" "/proc/1/uid_map");
                 (Setup, OProbe "fclose" "/proc/1/uid_map");
                 (Setup, OMount "/sys" ("/r" +++ "/" +++ "sys") "bind" (N.lor MS_BIND MS_REC))] /\
    (o = Ok tt -> l = [(Setup, OProbe "statfs" "/sys/fs/cgroup");
                 (Setup, OProbe "access" "/proc/1/uid_map");
                 (Setup, OProbe "fopen" "/proc/1/uid_map");
                 (Setup, OProbe "fscanf" "/proc/1/uid_map");
                 (Setup, OProbe "fclose" "/proc/1/uid_map");
                 (Setup, OMount "/sys" ("/r" +++ "/" +++ "sys") "bind" (N.lor MS_BIND MS_REC))]).
Proof.
  cbv zeta. split; [vm_compute; reflexivity|].
  apply (mount_sys_nested_single_rec_mount _ "/r" st0 TMPFS_MAGIC 0%N 100000%N 65536%N);
    [reflexivity | reflexivity | reflexivity | vm_compute; reflexivity | right; left; discriminate].
Defined.

(** C7: on a cgroup-v1 host, when [/proc/1/uid_map] exists but fewer than
    three numbers can be read from it ([fscanf] returns less than 3, [EOF]
    included), [mount_sys] exits, and it has issued no mount. *)
Theorem mount_sys_bad_uid_map_fatal env root s t :
  statfs_cgroup env = Some t -> Z.eqb t CGROUP2_SUPER_MAGIC = false ->
  sys_access env "/proc/1/uid_map" = true ->
  (fst (fscanf_uid_map (uidmap_text env)) < 3)%Z ->
  let '(o, s') := mount_sys env root s in
  (exists code, o = Exit code) /\
  exists l, events s' = events s ++ l /\ mount_ops l = [].
Proof.
  intros Hfs Ht Hacc Hk. destruct s as [e0 c0 evs0].
  destruct (fscanf_uid_map (uidmap_text env)) as [k vals] eqn:Hs; cbn in Hk.
  assert (Hk' : Z.eqb k 3 = false) by (apply Z.eqb_neq; lia).
  unfold mount_sys, check_uid_map. mstep.
  rewrite Hfs. mstep. rewrite Ht, Hacc. mstep. rewrite Hs. mstep. rewrite Hk'.
  split_ifs.
  all: split; [eexists; reflexivity|];
    eexists; split; [repeat rewrite <- app_assoc; reflexivity| reflexivity].
Qed.

Lemma mount_sys_bad_uid_map_fatal_witness :
  let env := sample_env TMPFS_MAGIC ("0 0" +++ NL) false true in
  fscanf_uid_map (uidmap_text env) = (2%Z, [0%N; 0%N]) /\
  let '(o, s') := mount_sys env "/r" st0 in
  (exists code, o = Exit code) /\
  exists l, events s' = events st0 ++ l /\ mount_ops l = [].
Proof.
  cbv zeta. split; [vm_compute; reflexivity|].
  apply (mount_sys_bad_uid_map_fatal _ "/r" st0 TMPFS_MAGIC);
    [reflexivity | reflexivity | reflexivity | vm_compute; reflexivity].
Defined.

(** C5 (counterexample): the Hosts Synthesizer does not run last.  On a
    host where every call succeeds, the run writes [etc/hosts] (event 20,
    component [Hosts]) before it creates the placeholder [/r/dev/null]
    (event 24, component [DevMounts]): a mutating operation of the Device &
    File Bind-Mounter comes after one of the Hosts Synthesizer. *)
Lemma main_hosts_before_devnodes_cex :
  let evs := events (snd (main (sample_env TMPFS_MAGIC ID_UID_MAP false true)
                               ["prepare-app"; "/r"] st0)) in
  (20 < 24)%nat /\
  nth_error evs 20 = Some (Hosts, OWrite "etc/hosts"
     ("127.0.0.1" +++ TAB +++ "rkt-01234567-89ab-cdef-0123-456789ab" +++ TAB
      +++ "localhost" +++ TAB +++ "localhost.localdomain" +++ NL)) /\
  nth_error evs 24 = Some (DevMounts, OCreate "/r/dev/null") /\
  mutating (OWrite "etc/hosts" "") = true /\ mutating (OCreate "/r/dev/null") = true.
Proof.
  cbv zeta; split; [lia|].
  split; [vm_compute; reflexivity|]; split; [vm_compute; reflexivity|].
  split; reflexivity.
Qed.

(** C5 (amended): every run of [main] goes through its components in the
    order Setup (root bind mount, root opened), Skeleton Builder, Hosts
    Synthesizer, Device & File bind mounts ([devnodes] and
    [dirs_mount_table]), Sys Mounter, then [files_mount_table] and the
    symlinks: the components tagging the events of the trace are sorted by
    that rank, so every event of the Hosts Synthesizer precedes every event
    of the Device & File Bind-Mounter, and every event of the Sys Mounter
    precedes the file mounts and symlinks. *)
Theorem main_component_order env args :
  StronglySorted rank_le (map fst (events (snd (main env args st0)))).
Proof.
  assert (H0 : ordered st0) by (repeat constructor).
  destruct (keeps_main env args st0 H0 (le_n 0)) as [Ho _].
  unfold ordered in Ho; apply SS_app in Ho as (Ho & _ & _); exact Ho.
Qed.

(** C6 (counterexample): a failing placeholder [open] is not fatal and
    leaves no placeholder.  Host [/dev/tty] exists, [open("/r/dev/tty",
    O_WRONLY|O_CREAT|...)] fails (e.g. with [ENXIO]); the loop body still
    bind-mounts [/dev/tty] on [/r/dev/tty] and returns normally. *)
Lemma devnode_placeholder_open_failure_ignored_cex :
  let env := sample_env TMPFS_MAGIC ID_UID_MAP false false in
  sys_access env "/dev/tty" = true /\ sys_open_creat env "/r/dev/tty" = false /\
  devnode_step env "/r" "/dev/tty" st0 =
    (Ok tt, mkSt 2 Setup [(Setup, OProbe "access" "/dev/tty");
                          (Setup, OProbe "open" "/r/dev/tty");
                          (Setup, OMount "/dev/tty" "/r/dev/tty" "bind" MS_BIND)]).
Proof.
  cbv zeta; split; [reflexivity|]; split; [reflexivity|].
  vm_compute; reflexivity.
Qed.

(** C6 (amended): the body of the [devnodes] loop, for a device [from].
    If the host node is absent ([access] fails) nothing but the probe
    happens and the loop goes on.  Otherwise a container path [root ++ from]
    of 4096 bytes or more is fatal; else the code tries to create the
    placeholder with [open(O_CREAT)], whose failure is ignored, then
    bind-mounts (non-recursively) the host node on it, and a failing mount
    is fatal. *)
Theorem devnode_step_spec env root from s :
  let to := root +++ from in
  let e := exit_err s in
  let c := cur s in
  devnode_step env root from s =
  if negb (sys_access env from) then
    (Ok tt, mkSt e c (events s ++ [(c, OProbe "access" from)]))
  else if Nat.leb PATH_BUF (String.length to) then
    (Exit (S e), mkSt (S e) c (events s ++ [(c, OProbe "access" from)]))
  else
    let evs := events s ++ (c, OProbe "access" from) ::
                 (if sys_open_creat env to
                  then [(c, OCreate to); (c, OProbe "close" to)]
                  else [(c, OProbe "open" to)]) ++
                 [(c, OMount from to "bind" MS_BIND)] in
    if is_some (sys_mount env from to MS_BIND)
    then (Exit (S (S e)), mkSt (S (S e)) c evs)
    else (Ok tt, mkSt (S (S e)) c evs).
Proof.
  destruct s as [e0 c0 evs0]; cbv zeta.
  unfold devnode_step, do_mount; mstep.
  destruct (sys_access env from); mstep; [|reflexivity].
  split_ifs; cbn; repeat rewrite <- app_assoc; reflexivity.
Qed.

(** C4 (counterexample): the host name keeps only 28 characters of the
    machine id ([MACHINE_ID_LEN] is the length of
    ["0123456789abcdef0123456789ab"] and the format is
    ["rkt-%.8s-%.4s-%.4s-%.4s-%.8s"]).  With [/etc/machine-id] holding
    [0123456789abcdef0123456789abcdef], the only write of the hosts file
    writes the line for [rkt-01234567-89ab-cdef-0123-456789ab], not the
    line for [rkt-01234567-89ab-cdef-0123-456789abcdef]. *)
Lemma hosts_name_drops_last_four_cex :
  let env := sample_env TMPFS_MAGIC ID_UID_MAP false true in
  mid_contents env = "0123456789abcdef0123456789abcdef" +++ NL /\
  sys_faccessat env "etc/hosts" = false /\
  filter (fun e => match snd e with OWrite _ _ => true | _ => false end)
         (events (snd (ensure_etc_hosts_exists env "/r" st0))) =
    [(Setup, OWrite "etc/hosts" (hosts_text "rkt-01234567-89ab-cdef-0123-456789ab"))] /\
  hosts_text "rkt-01234567-89ab-cdef-0123-456789ab"
    <> hosts_text "rkt-01234567-89ab-cdef-0123-456789abcdef".
Proof.
  cbv zeta; split; [reflexivity|]; split; [reflexivity|]; split.
  - vm_compute; reflexivity.
  - intros H; apply (f_equal String.length) in H; vm_compute in H; discriminate H.
Qed.

(** C4 (amended): when [etc/hosts] is absent under the root and
    [/etc/machine-id] starts with 28 hexadecimal digits [id], and every call
    succeeds, [ensure_etc_hosts_exists] creates [etc/hosts] and writes
    exactly the line [127.0.0.1 TAB name TAB localhost TAB
    localhost.localdomain NL], where [name] is [rkt-] followed by the 28
    digits grouped 8-4-4-4-8; the characters after the 28th are not used. *)
Theorem ensure_etc_hosts_exists_line env root s id rest :
  sys_faccessat env "etc/hosts" = false ->
  mid_open env = true -> mid_read_ok env = true -> mid_close env = true ->
  hosts_open env = true -> hosts_write_ok env = true -> hosts_close env = true ->
  mid_contents env = id +++ rest ->
  String.length id = 28 -> forallb is_hex (list_ascii_of_string id) = true ->
  let name := "rkt-" +++ substring 0 8 id +++ "-" +++ substring 8 4 id +++ "-"
              +++ substring 12 4 id +++ "-" +++ substring 16 4 id +++ "-"
              +++ substring 20 8 id in
  let c := cur s in
  ensure_etc_hosts_exists env root s =
    (Ok true, mkSt (exit_err s) c
       (events s ++
        [(c, OProbe "faccessat" "etc/hosts");
         (c, OProbe "open" "/etc/machine-id");
         (c, OProbe "read" "/etc/machine-id");
         (c, OProbe "close" "/etc/machine-id");
         (c, OCreate "etc/hosts");
         (c, OWrite "etc/hosts" ("127.0.0.1" +++ TAB +++ name +++ TAB +++ "localhost"
                                 +++ TAB +++ "localhost.localdomain" +++ NL));
         (c, OProbe "close" "etc/hosts")])).
Proof.
  intros Hfa Hmo Hmr Hmc Hho Hhw Hhc Hct Hl Hh; cbv zeta.
  destruct (machine_name_of_hex id rest (mid_buf0 env) Hl Hh) as [Hn Hlen].
  destruct s as [e0 c0 evs0].
  unfold ensure_etc_hosts_exists, get_machine_name; mstep.
  rewrite Hfa; mstep. rewrite Hmo; mstep. rewrite Hmr; mstep. rewrite Hmc; mstep.
  rewrite Hct, Hn, Hlen.
  assert (Hht : String.length (hosts_text (name_of_id id)) = 79)
    by (unfold hosts_text; repeat rewrite length_append_str; rewrite Hlen; reflexivity).
  change (S MACHINE_NAME_LEN <=? 36) with false; cbv iota beta.
  rewrite (substring_0_full _ (name_of_id id)) by (rewrite Hlen; cbn; lia).
  rewrite Hht; change (HOSTS_BUF <=? 79) with false; cbv iota beta.
  rewrite Hho; mstep. rewrite (substring_0_full _ (hosts_text _)) by (rewrite Hht; cbn; lia).
  rewrite (substring_0_full _ (hosts_text _)) by (rewrite Hht; cbn; lia).
  rewrite Hhw; mstep. rewrite Hhc; mstep.
  repeat rewrite <- app_assoc; reflexivity.
Qed.

Lemma ensure_etc_hosts_exists_line_witness :
  ensure_etc_hosts_exists (sample_env TMPFS_MAGIC ID_UID_MAP false true) "/r" st0 =
    (Ok true, mkSt 0 Setup
       [(Setup, OProbe "faccessat" "etc/hosts");
        (Setup, OProbe "open" "/etc/machine-id");
        (Setup, OProbe "read" "/etc/machine-id");
        (Setup, OProbe "close" "/etc/machine-id");
        (Setup, OCreate "etc/hosts");
        (Setup, OWrite "etc/hosts" ("127.0.0.1" +++ TAB +++ "rkt-01234567-89ab-cdef-0123-456789ab"
                                    +++ TAB +++ "localhost" +++ TAB +++ "localhost.localdomain" +++ NL));
        (Setup, OProbe "close" "etc/hosts")]).
Proof.
  apply (ensure_etc_hosts_exists_line _ "/r" st0 "0123456789abcdef0123456789ab" ("cdef" +++ NL));
    reflexivity.
Defined.

(** C8: every mount of the run is on a path resolved against the root and
    never on a truncated one.  The first mount has the root itself as
    target.  [mount_at] (used for [dirs_mount_table], for the [/sys] and
    [/sys/fs/cgroup] mounts and for the recursive [/sys] mount), each
    controller of the [/sys/fs/cgroup] listing, each present device node
    and each file mount only mount on the full path [root/target] (resp.
    [root ++ device]), and only when it is shorter than 4096 bytes; when it
    is 4096 bytes or longer the step exits before any mount. *)
Theorem mount_targets_resolved env root :
  (forall s, let '(o, s') := setup env root s in
     exists l, events s' = events s ++ l /\ mount_targets l = [root]) /\
  (forall mnt s, resolved_step (mount_at env root mnt) (root +++ "/" +++ mp_target mnt) true s) /\
  (forall d s, resolved_step (mount_controller env root d)
                 (root +++ "/" +++ "sys/fs/cgroup/" +++ d_name d)
                 (Nat.eqb (d_type d) DT_DIR && negb (String.eqb (d_name d) ".")
                  && negb (String.eqb (d_name d) ".."))%bool s) /\
  (forall from s, resolved_step (devnode_step env root from) (root +++ from)
                    (sys_access env from) s) /\
  (forall mnt s, resolved_step (file_step env root mnt) (root +++ "/" +++ mp_target mnt) true s).
Proof.
  split; [|split; [|split; [|split]]].
  - intros [e0 c0 evs0]; unfold setup, do_mount; split_ifs;
      eexists; (split; [repeat rewrite <- app_assoc; reflexivity | reflexivity]).
  - intros mnt [e0 c0 evs0]; unfold resolved_step, mount_at, do_mount; split_ifs; close_resolved.
  - intros d [e0 c0 evs0]; unfold resolved_step, mount_controller, mount_at, do_mount;
      split_ifs; close_resolved.
  - intros from [e0 c0 evs0]; unfold resolved_step, devnode_step, do_mount; split_ifs;
      close_resolved.
  - intros mnt [e0 c0 evs0]; unfold resolved_step, file_step, do_mount; split_ifs;
      close_resolved.
Qed.

(** C9: against a root that is already prepared, the skeleton-and-file
    steps succeed.  When every [unlinkat] returns success, [ENOENT] or
    [EISDIR], every [mkdirat] success or [EEXIST], [etc/hosts] is present
    and every [symlink] returns success or [EEXIST] (and the root path is
    short), the Skeleton Builder returns normally; the Hosts Synthesizer
    only probes [etc/hosts] and closes the root descriptor, so the hosts
    file is not touched; an absent host device node is skipped; a file mount
    whose host source is absent is skipped without any mount; and the two
    symlinks return normally. *)
Theorem rerun_tolerated env root :
  (forall p, sys_unlinkat env p = None \/ sys_unlinkat env p = Some ENOENT
             \/ sys_unlinkat env p = Some EISDIR) ->
  (forall p, sys_mkdirat env p = None \/ sys_mkdirat env p = Some EEXIST) ->
  sys_faccessat env "etc/hosts" = true ->
  (forall t l, sys_symlink env t l = None \/ sys_symlink env t l = Some EEXIST) ->
  (String.length root < 4000)%nat ->
  (forall s, exists s', skeleton env s = (Ok tt, s')) /\
  (forall s, hosts_step env root s =
     (Ok tt, mkSt (S (exit_err s)) (cur s)
               (events s ++ [(cur s, OProbe "faccessat" "etc/hosts");
                             (cur s, OProbe "close" root)]))) /\
  (forall from s, sys_access env from = false ->
     devnode_step env root from s =
       (Ok tt, mkSt (exit_err s) (cur s) (events s ++ [(cur s, OProbe "access" from)]))) /\
  (forall mnt s, sys_access env (mp_source mnt) = false ->
     (String.length (root +++ "/" +++ mp_target mnt) < PATH_BUF)%nat ->
     exists l, file_step env root mnt s = (Ok tt, mkSt (S (exit_err s)) (cur s) (events s ++ l))
               /\ mount_ops l = []) /\
  (forall s, exists s', (symlink_step env root "/dev/pts/ptmx" "/dev/ptmx" ;;
                         symlink_step env root "/run/systemd/journal/dev-log" "/dev/log") s
                        = (Ok tt, s')).
Proof.
  intros Hun Hmk Hfa Hsym Hroot.
  split; [|split; [|split; [|split]]].
  - intros s; unfold skeleton, bind.
    assert (HU : forall p s0, exists s', unlink_step env p s0 = (Ok tt, s')).
    { intros p s0; unfold unlink_step; mstep.
      destruct (Hun p) as [H|[H|H]]; rewrite H; cbn; eexists; reflexivity. }
    destruct (for_each_ok unlink_paths (unlink_step env) HU s) as [s1 ->].
    apply for_each_ok; intros [p md] s0; unfold mkdir_step; mstep.
    destruct (Hmk p) as [H|H]; rewrite H; cbn; eexists; reflexivity.
  - intros [e0 c0 evs0]; unfold hosts_step, ensure_etc_hosts_exists; mstep.
    rewrite Hfa; mstep; rewrite <- app_assoc; reflexivity.
  - intros from [e0 c0 evs0] Hx; unfold devnode_step; mstep; rewrite Hx; mstep; reflexivity.
  - intros [src tgt ty fl] [e0 c0 evs0] Hx Hl; cbn [mp_target mp_source] in Hx, Hl; unfold file_step; mstep.
    apply Nat.leb_gt in Hl as Hl'; rewrite Hl'; mstep. rewrite Hx; mstep.
    eexists; split; reflexivity.
  - intros [e0 c0 evs0]; unfold symlink_step; mstep.
    assert (L1 : Nat.leb PATH_BUF (String.length (root +++ "/dev/ptmx")) = false)
      by (apply Nat.leb_gt; rewrite length_append_str; cbn; unfold PATH_BUF; lia).
    assert (L2 : Nat.leb PATH_BUF (String.length (root +++ "/dev/log")) = false)
      by (apply Nat.leb_gt; rewrite length_append_str; cbn; unfold PATH_BUF; lia).
    rewrite L1; mstep; rewrite L2; mstep.
    repeat match goal with
           | |- context [sys_symlink env ?t ?l] =>
               let H := fresh "H" in destruct (Hsym t l) as [H|H]; rewrite H; mstep
           end;
      eexists; reflexivity.
Qed.

Lemma rerun_tolerated_witness :
  let env := sample_env TMPFS_MAGIC ID_UID_MAP true true in
  let root := "/r" in
  (forall s, exists s', skeleton env s = (Ok tt, s')) /\
  (forall s, hosts_step env root s =
     (Ok tt, mkSt (S (exit_err s)) (cur s)
               (events s ++ [(cur s, OProbe "faccessat" "etc/hosts");
                             (cur s, OProbe "close" root)]))) /\
  (forall from s, sys_access env from = false ->
     devnode_step env root from s =
       (Ok tt, mkSt (exit_err s) (cur s) (events s ++ [(cur s, OProbe "access" from)]))) /\
  (forall mnt s, sys_access env (mp_source mnt) = false ->
     (String.length (root +++ "/" +++ mp_target mnt) < PATH_BUF)%nat ->
     exists l, file_step env root mnt s = (Ok tt, mkSt (S (exit_err s)) (cur s) (events s ++ l))
               /\ mount_ops l = []) /\
  (forall s, exists s', (symlink_step env root "/dev/pts/ptmx" "/dev/ptmx" ;;
                         symlink_step env root "/run/systemd/journal/dev-log" "/dev/log") s
                        = (Ok tt, s')).
Proof.
  cbv zeta.
  apply rerun_tolerated.
  - intros p; cbn; destruct (String.eqb p "dev/shm"); [right; right | left]; reflexivity.
  - intros p; right; reflexivity.
  - reflexivity.
  - intros t l; right; reflexivity.
  - cbn; lia.
Defined.

(** C1: on a cgroup-v1 host whose [/proc/1/uid_map] starts with the
    identity record [0 0 4294967295], a successful [mount_sys] issues, in
    this order, the non-recursive bind mounts of [/sys] on [root/sys] and of
    [/sys/fs/cgroup] on [root/sys/fs/cgroup], then one non-recursive bind
    mount per controller: per directory entry other than [.] and [..] of the
    listing of [root/sys/fs/cgroup], which after the second mount is the
    host's [/sys/fs/cgroup], from [sys/fs/cgroup/NAME] onto
    [root/sys/fs/cgroup/NAME]; no other mount. *)
Theorem mount_sys_legacy_identity_mounts env root s s' t :
  statfs_cgroup env = Some t -> Z.eqb t CGROUP2_SUPER_MAGIC = false ->
  sys_access env "/proc/1/uid_map" = true ->
  fscanf_uid_map (uidmap_text env) = (3%Z, [0%N; 0%N; UNMAPPED]) ->
  mount_sys env root s = (Ok tt, s') ->
  exists l, events s' = events s ++ l /\
    mount_ops l =
      [OMount "/sys" (root +++ "/" +++ "sys") "bind" MS_BIND;
       OMount "/sys/fs/cgroup" (root +++ "/" +++ "sys/fs/cgroup") "bind" MS_BIND] ++
      map (fun n => OMount ("sys/fs/cgroup/" +++ n) (root +++ "/" +++ "sys/fs/cgroup/" +++ n)
                           "bind" MS_BIND)
          (controllers (host_dir env "/sys/fs/cgroup")).
Proof.
  intros Hfs Ht Hacc Hscan H; unfold mount_sys in H.
  apply bind_Ok_inv in H as (fs & s1 & Hx & H).
  apply syscall_Ok in Hx as (-> & ->).
  apply bind_Ok_inv in H as ([] & s2 & Hx & H).
  apply exit_if_Ok in Hx as (_ & ->).
  rewrite Hfs, Ht in H; cbv beta iota zeta in H.
  apply bind_Ok_inv in H as (done & s3 & Hc & H).
  apply check_uid_map_identity in Hc as (-> & l1 & E1 & M1); [|exact Hacc|exact Hscan].
  apply mount_sys_legacy_Ok in H as (l2 & E2 & M2).
  cbn [events] in E1.
  exists (([(cur s, OProbe "statfs" "/sys/fs/cgroup")] ++ l1) ++ l2); split.
  - rewrite E2, E1; repeat rewrite <- app_assoc; reflexivity.
  - rewrite !mount_ops_app, M1, M2; reflexivity.
Qed.

Lemma mount_sys_legacy_identity_mounts_witness :
  let env := sample_env TMPFS_MAGIC ID_UID_MAP false true in
  let s' := snd (mount_sys env "/r" st0) in
  controllers (host_dir env "/sys/fs/cgroup") = ["cpu,cpuacct"; "memory"; "systemd"] /\
  exists l, events s' = events st0 ++ l /\
    mount_ops l =
      [OMount "/sys" ("/r" +++ "/" +++ "sys") "bind" MS_BIND;
       OMount "/sys/fs/cgroup" ("/r" +++ "/" +++ "sys/fs/cgroup") "bind" MS_BIND] ++
      map (fun n => OMount ("sys/fs/cgroup/" +++ n) ("/r" +++ "/" +++ "sys/fs/cgroup/" +++ n)
                           "bind" MS_BIND)
          (controllers (host_dir env "/sys/fs/cgroup")).
Proof.
  cbv zeta; split; [vm_compute; reflexivity|].
  apply (mount_sys_legacy_identity_mounts _ "/r" st0 _ TMPFS_MAGIC);
    [reflexivity | reflexivity | reflexivity | vm_compute; reflexivity | vm_compute; reflexivity].
Defined.

(** ** Further properties of the code *)

Lemma append_empty_r s : s +++ "" = s.
Proof. induction s as [|c s IH]; cbn; [|rewrite IH]; reflexivity. Qed.

Lemma confined_bind {A B} root (m : M A) (k : A -> M B) :
  confined_m root m -> (forall a, confined_m root (k a)) -> confined_m root (bind m k).
Proof.
  intros Hm Hk s; unfold bind; destruct (Hm s) as (l1 & E1 & F1).
  destruct (m s) as [[a|c] s1]; cbn in *; [|eauto].
  destruct (Hk a s1) as (l2 & E2 & F2); exists (l1 ++ l2); split.
  - rewrite E2, E1, app_assoc; reflexivity.
  - apply Forall_app; auto.
Qed.

Lemma confined_of_stays_nil {A} root (m : M A) :
  (forall s, events (snd (m s)) = events s) -> confined_m root m.
Proof. intros H s; exists []; rewrite app_nil_r; auto. Qed.

Lemma confined_for_each {A} root (xs : list A) f :
  (forall x, confined_m root (f x)) -> confined_m root (for_each xs f).
Proof.
  intros Hf; induction xs as [|x xs IH]; cbn.
  - apply confined_of_stays_nil; reflexivity.
  - apply confined_bind; auto.
Qed.

Ltac close_confined :=
  first [ exists []; split; [symmetry; apply app_nil_r|]
        | eexists; split; [repeat rewrite <- app_assoc; reflexivity|] ];
  repeat (apply Forall_cons;
          [cbn [snd confined];
           first [ exact I
                 | eexists; reflexivity
                 | exists ""; rewrite append_empty_r; reflexivity
                 | left; reflexivity
                 | right; eexists; reflexivity
                 | reflexivity
                 | cbn; tauto ] |]);
  apply Forall_nil.

Ltac prove_confined :=
  let s := fresh "s" in intros s; destruct s as [?e0 ?c0 ?evs0]; split_ifs; close_confined.

Lemma confined_mount_at env root mnt : confined_m root (mount_at env root mnt).
Proof. unfold mount_at, do_mount; prove_confined. Qed.

Lemma confined_mount_controller env root d : confined_m root (mount_controller env root d).
Proof. unfold mount_controller, mount_at, do_mount; prove_confined. Qed.

Lemma confined_syscall {A} root o (r : A) : confined root o -> confined_m root (syscall o r).
Proof. intros H s; exists [(cur s, o)]; split; [reflexivity | constructor; auto]. Qed.

Lemma confined_exit_if root c : confined_m root (exit_if c).
Proof. apply confined_of_stays_nil; intros s; unfold exit_if; destruct c; reflexivity. Qed.

Lemma confined_ret {A} root (a : A) : confined_m root (ret a).
Proof. apply confined_of_stays_nil; reflexivity. Qed.

Lemma confined_read_dir env root p : confined_m root (read_dir env p).
Proof. intros s; exists [(cur s, OProbe "readdir" p)]; split; [reflexivity | repeat constructor]. Qed.

Lemma confined_enter root c : confined_m root (enter c).
Proof. apply confined_of_stays_nil; reflexivity. Qed.

Lemma confined_devnode_step env root from : confined_m root (devnode_step env root from).
Proof. unfold devnode_step, do_mount; prove_confined. Qed.

Lemma confined_file_step env root mnt : confined_m root (file_step env root mnt).
Proof. unfold file_step, do_mount; prove_confined. Qed.

Lemma confined_symlink_step env root t n : confined_m root (symlink_step env root t n).
Proof. unfold symlink_step; prove_confined. Qed.

Ltac struct_confined :=
  repeat first
    [ apply confined_mount_at
    | apply confined_devnode_step
    | apply confined_file_step
    | apply confined_symlink_step
    | apply confined_mount_controller
    | apply confined_read_dir
    | apply confined_exit_if
    | apply confined_ret
    | apply confined_bind; [|intro]
    | apply confined_for_each; intro
    | apply confined_syscall; cbn;
      solve [ exact I | tauto | eexists; reflexivity
            | exists ""; rewrite append_empty_r; reflexivity
            | repeat (first [left; reflexivity | right]) ]
    | apply confined_enter
    | progress cbv zeta
    | match goal with
      | |- confined_m _ (if ?c then _ else _) => destruct c
      | |- confined_m _ (match ?c with _ => _ end) => destruct c
      end ].

Lemma confined_mount_sys env root : confined_m root (mount_sys env root).
Proof. unfold mount_sys, check_uid_map, mount_sys_legacy, pexit_if; struct_confined. Qed.

(** X1: whatever the host answers, every operation a run of [main] issues
    that changes a file system is confined to the container: mounts and
    symlinks target paths that start with the root [argv[1]], unlinks and
    directory creations only name the entries of [unlink_paths] and [dirs]
    relative to the root descriptor, and the only file written is
    [etc/hosts] relative to that descriptor. *)
Theorem main_ops_confined env args :
  Forall (fun e => confined (nth 1 args "") (snd e)) (events (snd (main env args st0))).
Proof.
  assert (H : confined_m (nth 1 args "") (main env args)).
  { unfold main, setup, do_mount, skeleton, hosts_step, ensure_etc_hosts_exists,
      get_machine_name, dev_mounts, file_mounts, pexit_if.
    cbn [for_each unlink_paths dirs].
    unfold unlink_step, mkdir_step.
    struct_confined; apply confined_mount_sys. }
  destruct (H st0) as (l & E & F); rewrite E; exact F.
Qed.

Lemma prec_s_length n s : (String.length (prec_s n s) <= n)%nat.
Proof.
  revert s; induction n as [|n IH]; intros [|c s]; cbn; try lia.
  destruct (Ascii.eqb _ _); cbn; [lia|]. specialize (IH s); lia.
Qed.

Lemma machine_name_text_length buf :
  (String.length (machine_name_text buf) <= MACHINE_NAME_LEN)%nat.
Proof.
  unfold machine_name_text; repeat rewrite length_append_str.
  pose proof (prec_s_length 8 buf); pose proof (prec_s_length 4 (str_drop 8 buf));
  pose proof (prec_s_length 4 (str_drop 12 buf)); pose proof (prec_s_length 4 (str_drop 16 buf));
  pose proof (prec_s_length 8 (str_drop 20 buf)).
  unfold MACHINE_NAME_LEN; cbn [String.length]; lia.
Qed.

(** X2: [get_machine_name] with [MACHINE_NAME_LEN + 1] bytes succeeds
    exactly when opening, reading and closing [/etc/machine-id] succeed,
    and then yields the whole formatted name: the formatted name never
    exceeds [MACHINE_NAME_LEN] characters, so the truncation check never
    fails. *)
Theorem get_machine_name_result env s :
  fst (get_machine_name env (S MACHINE_NAME_LEN) s) =
  Ok (if (mid_open env && mid_read_ok env && mid_close env)%bool
      then Some (machine_name_text (machine_id_buf (mid_contents env) (mid_buf0 env)))
      else None).
Proof.
  pose proof (machine_name_text_length (machine_id_buf (mid_contents env) (mid_buf0 env))) as L.
  destruct s as [e0 c0 evs0]; unfold get_machine_name; mstep.
  destruct (mid_open env); mstep; [|reflexivity].
  destruct (mid_read_ok env); mstep; [|reflexivity].
  destruct (mid_close env); mstep; [|reflexivity].
  replace (S MACHINE_NAME_LEN <=? _) with false by (symmetry; apply Nat.leb_gt; lia).
  rewrite substring_0_full by lia. reflexivity.
Qed.

(** X3: [ensure_etc_hosts_exists] returns success exactly when
    [etc/hosts] already exists under the root, or when every call on
    [/etc/machine-id] and on the new [etc/hosts] succeeds (the hosts line
    always fits its 128-byte buffer); when [etc/hosts] exists it does
    nothing besides the [faccessat] probe. *)
Theorem ensure_etc_hosts_exists_result env root s :
  fst (ensure_etc_hosts_exists env root s) =
  Ok (sys_faccessat env "etc/hosts"
      || (mid_open env && mid_read_ok env && mid_close env
          && hosts_open env && hosts_write_ok env && hosts_close env))%bool /\
  (sys_faccessat env "etc/hosts" = true ->
   events (snd (ensure_etc_hosts_exists env root s)) =
   events s ++ [(cur s, OProbe "faccessat" "etc/hosts")]).
Proof.
  split; [|intros H; destruct s; unfold ensure_etc_hosts_exists; mstep; rewrite H; reflexivity].
  set (buf := machine_id_buf (mid_contents env) (mid_buf0 env)).
  pose proof (machine_name_text_length buf) as L.
  assert (LH : (String.length (hosts_text (machine_name_text buf)) < HOSTS_BUF)%nat).
  { unfold hosts_text; repeat rewrite length_append_str.
    unfold MACHINE_NAME_LEN, HOSTS_BUF, TAB, NL in *; cbn [String.length] in *; lia. }
  destruct s as [e0 c0 evs0]; unfold ensure_etc_hosts_exists, get_machine_name; mstep.
  destruct (sys_faccessat env "etc/hosts"); mstep; [reflexivity|].
  destruct (mid_open env); mstep; [|reflexivity].
  destruct (mid_read_ok env); mstep; [|reflexivity].
  destruct (mid_close env); mstep; [|reflexivity].
  fold buf.
  replace (S MACHINE_NAME_LEN <=? _) with false by (symmetry; apply Nat.leb_gt; lia).
  rewrite substring_0_full by lia. mstep.
  replace (HOSTS_BUF <=? _) with false by (symmetry; apply Nat.leb_gt; lia).
  destruct (hosts_open env); mstep; [|reflexivity].
  destruct (hosts_write_ok env); mstep; [|reflexivity].
  destruct (hosts_close env); reflexivity.
Qed.

Lemma for_each_checked {A} (xs : list A) (f : A -> M unit) (tol : A -> bool) (ev : A -> op) :
  (forall x s, f x s = ((if tol x then Ok tt else Exit (S (exit_err s))),
                        mkSt (S (exit_err s)) (cur s) (events s ++ [(cur s, ev x)]))) ->
  forall s, match for_each xs f s with
    | (Ok _, s') => forallb tol xs = true /\ cur s' = cur s /\
                    events s' = events s ++ map (fun x => (cur s, ev x)) xs
    | (Exit _, s') => forallb tol xs = false /\
                    exists l, events s' = events s ++ l /\ Forall (fun e => In (snd e) (map ev xs)) l
    end.
Proof.
  intros Hf; induction xs as [|x xs IH]; intros s.
  - cbn; rewrite app_nil_r; auto.
  - cbn [for_each]; unfold bind at 1; rewrite Hf.
    destruct (tol x) eqn:T; cbn [forallb andb].
    + specialize (IH (mkSt (S (exit_err s)) (cur s) (events s ++ [(cur s, ev x)]))).
      cbn [cur events] in IH.
      destruct (for_each xs f _) as [[a|c] s'].
      * destruct IH as (H1 & H2 & H3); split; [rewrite T, H1; reflexivity|].
        split; [exact H2|]. rewrite H3, <- app_assoc; reflexivity.
      * destruct IH as (H1 & l & H2 & H3); split; [rewrite T, H1; reflexivity|].
        exists ((cur s, ev x) :: l); split.
        -- rewrite H2, <- app_assoc; reflexivity.
        -- constructor; [left; reflexivity|].
           eapply Forall_impl; [|exact H3]; intros e He; right; exact He.
    + split; [rewrite T; reflexivity|]. exists [(cur s, ev x)]; split; [reflexivity|].
      constructor; [left; reflexivity | constructor].
Qed.

Lemma unlink_step_eq env p s :
  unlink_step env p s = ((if unlink_tolerated (sys_unlinkat env p) then Ok tt else Exit (S (exit_err s))),
                         mkSt (S (exit_err s)) (cur s) (events s ++ [(cur s, OUnlink p)])).
Proof. destruct s; unfold unlink_step; mstep; destruct (sys_unlinkat env p) as [[]|]; reflexivity. Qed.

Lemma mkdir_step_eq env d s :
  mkdir_step env d s = ((if mkdir_tolerated (sys_mkdirat env (fst d)) then Ok tt else Exit (S (exit_err s))),
                        mkSt (S (exit_err s)) (cur s) (events s ++ [(cur s, OMkdir (fst d) (snd d))])).
Proof. destruct s, d as [p m]; unfold mkdir_step; mstep; destruct (sys_mkdirat env p) as [[]|]; reflexivity. Qed.

(** X4: the unlink and mkdir loops of [main] succeed exactly when every
    [unlinkat] succeeds or fails with [ENOENT] or [EISDIR] and every
    [mkdirat] succeeds or fails with [EEXIST]; on success they issue all
    the unlinks, then all the mkdirs with their modes, in table order; when
    an unlink fails, no directory has been created. *)
Theorem skeleton_result env s :
  match skeleton env s with
  | (Ok _, s') =>
      (forallb (fun p => unlink_tolerated (sys_unlinkat env p)) unlink_paths
       && forallb (fun d => mkdir_tolerated (sys_mkdirat env (fst d))) dirs)%bool = true /\
      events s' = events s ++ map (fun p => (cur s, OUnlink p)) unlink_paths
                           ++ map (fun d => (cur s, OMkdir (fst d) (snd d))) dirs
  | (Exit _, s') =>
      (forallb (fun p => unlink_tolerated (sys_unlinkat env p)) unlink_paths
       && forallb (fun d => mkdir_tolerated (sys_mkdirat env (fst d))) dirs)%bool = false /\
      (forallb (fun p => unlink_tolerated (sys_unlinkat env p)) unlink_paths = false ->
       exists l, events s' = events s ++ l /\ Forall (fun e => exists p, snd e = OUnlink p) l)
  end.
Proof.
  pose proof (for_each_checked unlink_paths (unlink_step env)
                (fun p => unlink_tolerated (sys_unlinkat env p)) OUnlink (unlink_step_eq env)) as HU.
  pose proof (for_each_checked dirs (mkdir_step env)
                (fun d => mkdir_tolerated (sys_mkdirat env (fst d))) (fun d => OMkdir (fst d) (snd d))
                (mkdir_step_eq env)) as HD.
  unfold skeleton, bind at 1. specialize (HU s).
  destruct (for_each unlink_paths (unlink_step env) s) as [[a|c] s1].
  - destruct HU as (U1 & U2 & U3). rewrite U1; cbn [andb].
    specialize (HD s1); destruct (for_each dirs (mkdir_step env) s1) as [[b|c] s2].
    + destruct HD as (D1 & D2 & D3); split; [exact D1|].
      rewrite D3, U3, U2, <- app_assoc; reflexivity.
    + destruct HD as (D1 & _); split; [exact D1 | intros F; discriminate F].
  - destruct HU as (U1 & l & U2 & U3). rewrite U1; cbn [andb]; split; [reflexivity|].
    intros _; exists l; split; [exact U2|].
    eapply Forall_impl; [|exact U3]. intros e He; apply in_map_iff in He as (p & <- & _); eauto.
Qed.

Lemma conv_u_small s v r : conv_u s = Some (v, r) -> (v < 2 ^ 32)%N.
Proof.
  unfold conv_u. destruct (_ : bool * string) as [neg s1].
  destruct (read_digits s1 0 0) as [[v0 cnt] rest].
  destruct (Nat.eqb cnt 0); [discriminate|]. intros E; injection E as <- _.
  apply N.mod_lt; discriminate.
Qed.

Lemma scan_u_shape n s acc :
  Forall (fun v => (v < 2 ^ 32)%N) acc ->
  let '(k, vs) := scan_u n s acc in
  (exists ext, vs = acc ++ ext /\ (length ext <= n)%nat) /\
  Forall (fun v => (v < 2 ^ 32)%N) vs /\
  ((k = -1)%Z /\ vs = [] /\ acc = [] \/ k = Z.of_nat (length vs)).
Proof.
  revert s acc; induction n as [|n IH]; intros s acc Hacc; cbn [scan_u].
  - split; [exists []; rewrite app_nil_r; auto|]. auto.
  - destruct (skip_ws s) as [|c t].
    + split; [exists []; rewrite app_nil_r; split; [reflexivity|cbn; lia]|]. split; [exact Hacc|].
      destruct acc; auto.
    + destruct (conv_u (String c t)) as [[v r]|] eqn:Ec.
      * apply conv_u_small in Ec.
        specialize (IH r (acc ++ [v])).
        destruct (scan_u n r (acc ++ [v])) as [k vs].
        destruct IH as ((ext & E1 & E2) & F & K).
        { apply Forall_app; auto. }
        split; [exists (v :: ext); rewrite E1, <- app_assoc; split; [reflexivity|cbn; lia]|].
        split; [exact F|].
        destruct K as [(_ & _ & K)|K]; [destruct acc; discriminate|right; exact K].
      * split; [exists []; rewrite app_nil_r; split; [reflexivity|cbn; lia]|]. auto.
Qed.

Lemma scan_u_eof n s : (fst (scan_u (S n) s []) = -1)%Z <-> skip_ws s = EmptyString.
Proof.
  cbn [scan_u]. destruct (skip_ws s) as [|c t]; cbn; [tauto|].
  split; [|discriminate].
  destruct (conv_u (String c t)) as [[v r]|] eqn:Ec; [|discriminate].
  apply conv_u_small in Ec.
  pose proof (scan_u_shape n r [v] (Forall_cons v Ec (Forall_nil _))) as Sh.
  destruct (scan_u n r [v]) as [k vs]; cbn.
  destruct Sh as (_ & _ & [(_ & _ & H)|H]); [discriminate|]. intros ->; lia.
Qed.

(** X5: the model of [fscanf(f, "%u %u %u", ...)] returns [EOF] (-1)
    exactly when the text is blank, and then no value; otherwise it
    returns the number of values it stored, at most 3; every value fits
    in 32 bits. *)
Theorem fscanf_uid_map_shape text :
  let '(k, vs) := fscanf_uid_map text in
  ((k = -1)%Z <-> skip_ws text = EmptyString) /\
  ((k = -1)%Z /\ vs = [] \/ k = Z.of_nat (length vs) /\ (length vs <= 3)%nat) /\
  Forall (fun v => (v < 2 ^ 32)%N) vs.
Proof.
  pose proof (scan_u_shape 3 text [] (Forall_nil _)) as Sh.
  pose proof (scan_u_eof 2 text) as Eof.
  unfold fscanf_uid_map.
  destruct (scan_u 3 text []) as [k vs]; cbn [fst] in Eof.
  destruct Sh as ((ext & E1 & E2) & F & K). cbn in E1; subst ext.
  split; [exact Eof|split; [|exact F]].
  destruct K as [(K1 & K2 & _)|K]; [left; auto|right; auto].
Qed.

Lemma digit_char_props d : (d < 10)%N ->
  digit_val (digit_char d) = Some d /\ is_space (digit_char d) = false /\
  Ascii.eqb (digit_char d) "-"%char = false /\ Ascii.eqb (digit_char d) "+"%char = false.
Proof.
  intros H.
  assert (d = 0 \/ d = 1 \/ d = 2 \/ d = 3 \/ d = 4 \/ d = 5 \/ d = 6 \/ d = 7 \/ d = 8 \/ d = 9)%N
    as D by lia.
  repeat destruct D as [-> | D]; subst; vm_compute; auto.
Qed.

Lemma read_digits_dec ds r acc cnt :
  forallb (fun d => d <? 10)%N ds = true -> ends_number r = true ->
  read_digits (dec_string ds +++ r) acc cnt =
  (fold_left (fun a d => a * 10 + d)%N ds acc, (cnt + length ds)%nat, r).
Proof.
  revert acc cnt; induction ds as [|d ds IH]; intros acc cnt Hd Hr; cbn [dec_string append fold_left].
  - destruct r as [|c t]; cbn; [rewrite Nat.add_0_r; reflexivity|].
    cbn in Hr. destruct (digit_val c); [discriminate|]. rewrite Nat.add_0_r; reflexivity.
  - cbn [forallb] in Hd. apply andb_prop in Hd as [H1 H2]. apply N.ltb_lt in H1.
    destruct (digit_char_props d H1) as (V & _).
    cbn [read_digits]; rewrite V, IH by assumption. cbn [length]; rewrite Nat.add_succ_r; reflexivity.
Qed.

Lemma skip_ws_blank w t : blank w = true -> skip_ws (w +++ t) = skip_ws t.
Proof.
  induction w as [|c w IH]; cbn; [auto|].
  destruct (is_space c); cbn; [exact IH|discriminate].
Qed.

Lemma skip_ws_dec ds t : uint_digits ds = true -> skip_ws (dec_string ds +++ t) = dec_string ds +++ t.
Proof.
  destruct ds as [|d ds]; [discriminate|]. unfold uint_digits; cbn [forallb].
  intros H; apply andb_prop in H as [H _]; apply andb_prop in H as [_ H];
  apply andb_prop in H as [H _]; apply N.ltb_lt in H.
  destruct (digit_char_props d H) as (_ & S & _). cbn. rewrite S. reflexivity.
Qed.

Lemma conv_u_dec ds r : uint_digits ds = true -> ends_number r = true ->
  conv_u (dec_string ds +++ r) = Some (dec_value ds, r).
Proof.
  destruct ds as [|d ds0] eqn:Eds; [discriminate|]. rewrite <- Eds.
  unfold uint_digits; intros H Hr.
  apply andb_prop in H as [H Hv]; apply andb_prop in H as [_ Hd]. apply N.ltb_lt in Hv.
  assert (Hd0 : (d < 10)%N).
  { subst ds; cbn in Hd. apply andb_prop in Hd as [Hd _]. apply N.ltb_lt in Hd; exact Hd. }
  destruct (digit_char_props d Hd0) as (_ & _ & M & P).
  unfold conv_u.
  replace (match dec_string ds +++ r with
           | String c r0 => if Ascii.eqb c "-"%char then (true, r0)
                            else if Ascii.eqb c "+"%char then (false, r0) else (false, dec_string ds +++ r)
           | EmptyString => (false, dec_string ds +++ r) end)
    with (false, dec_string ds +++ r) by (subst ds; cbn; rewrite M, P; reflexivity).
  rewrite read_digits_dec by assumption. fold (dec_value ds).
  replace (Nat.eqb (0 + length ds) 0) with false by (subst ds; reflexivity).
  replace (dec_value ds <=? ULONG_MAX)%N with true
    by (symmetry; apply N.leb_le; unfold ULONG_MAX; lia).
  rewrite N.mod_small by exact Hv. reflexivity.
Qed.

Lemma scan_u_dec n s ds r acc :
  uint_digits ds = true -> ends_number r = true -> skip_ws s = dec_string ds +++ r ->
  scan_u (S n) s acc = scan_u n r (acc ++ [dec_value ds]).
Proof.
  intros Hds Hr Hs. cbn [scan_u]. rewrite Hs.
  rewrite (conv_u_dec ds r Hds Hr).
  destruct ds as [|d ds]; [discriminate|]. reflexivity.
Qed.

Lemma skip_ws_space t : skip_ws (String " "%char t) = skip_ws t.
Proof. reflexivity. Qed.

Ltac skip_fields := first
  [ assumption | reflexivity
  | cbn [append]; rewrite ?skip_ws_space, skip_ws_blank, skip_ws_dec by assumption; reflexivity ].

(** X6: a line of three decimal numbers below 2^32, each preceded by
    blanks and separated by at least one space, as the kernel prints
    [/proc/1/uid_map], is read back by [fscanf] as count 3 and the three
    numbers. *)
Theorem fscanf_uid_map_round_trip w1 w2 w3 ds1 ds2 ds3 rest :
  blank w1 = true -> blank w2 = true -> blank w3 = true ->
  uint_digits ds1 = true -> uint_digits ds2 = true -> uint_digits ds3 = true ->
  ends_number rest = true ->
  fscanf_uid_map (w1 +++ dec_string ds1 +++ " " +++ w2 +++ dec_string ds2
                  +++ " " +++ w3 +++ dec_string ds3 +++ rest) =
  (3%Z, [dec_value ds1; dec_value ds2; dec_value ds3]).
Proof.
  intros B1 B2 B3 D1 D2 D3 R. unfold fscanf_uid_map.
  rewrite (scan_u_dec 2 _ ds1 (" " +++ w2 +++ dec_string ds2 +++ " " +++ w3 +++ dec_string ds3 +++ rest))
    by skip_fields.
  rewrite (scan_u_dec 1 _ ds2 (" " +++ w3 +++ dec_string ds3 +++ rest)) by skip_fields.
  rewrite (scan_u_dec 0 _ ds3 rest) by skip_fields.
  reflexivity.
Qed.

Lemma fscanf_uid_map_round_trip_witness :
  fscanf_uid_map ("         " +++ dec_string [0%N] +++ " " +++ "         " +++ dec_string [0%N]
                  +++ " " +++ "" +++ dec_string [4; 2; 9; 4; 9; 6; 7; 2; 9; 5]%N +++ NL) =
  (3%Z, [dec_value [0%N]; dec_value [0%N]; dec_value [4; 2; 9; 4; 9; 6; 7; 2; 9; 5]%N]).
Proof. apply fscanf_uid_map_round_trip; vm_compute; reflexivity. Defined.

(** X7: [mount_sys] exits before any mount when [statfs] of
    [/sys/fs/cgroup] fails, or, on a non-cgroup2 host with a
    [/proc/1/uid_map], when that file cannot be opened or closed. *)
Theorem mount_sys_fails_before_mounting env root s :
  match statfs_cgroup env with
  | None => True
  | Some t => Z.eqb t CGROUP2_SUPER_MAGIC = false /\ sys_access env "/proc/1/uid_map" = true /\
              (uidmap_fopen env && uidmap_fclose env)%bool = false
  end ->
  match mount_sys env root s with
  | (Ok _, _) => False
  | (Exit _, s') => exists l, events s' = events s ++ l /\ mount_ops l = []
  end.
Proof.
  destruct s as [e0 c0 evs0]; unfold mount_sys, check_uid_map; mstep.
  destruct (statfs_cgroup env) as [t|]; mstep.
  - intros (H1 & H2 & H3). rewrite H1, H2; mstep.
    destruct (uidmap_fopen env); mstep.
    + cbn in H3; rewrite H3; mstep.
      eexists; split; [repeat rewrite <- app_assoc; reflexivity | reflexivity].
    + eexists; split; [repeat rewrite <- app_assoc; reflexivity | reflexivity].
  - intros _. eexists; split; [repeat rewrite <- app_assoc; reflexivity | reflexivity].
Qed.

Lemma mount_sys_fails_before_mounting_witness :
  match mount_sys (cgroup_host_env (Some TMPFS_MAGIC) true false true true) "/r" st0 with
  | (Ok _, _) => False
  | (Exit _, s') => exists l, events s' = events st0 ++ l /\ mount_ops l = []
  end.
Proof. apply mount_sys_fails_before_mounting; vm_compute; auto. Defined.

Lemma mount_sys_no_uid_map_eq env root s t :
  statfs_cgroup env = Some t -> Z.eqb t CGROUP2_SUPER_MAGIC = false ->
  sys_access env "/proc/1/uid_map" = false ->
  mount_sys env root s =
  mount_sys_legacy env root
    (mkSt (S (exit_err s)) (cur s)
          (events s ++ [(cur s, OProbe "statfs" "/sys/fs/cgroup");
                        (cur s, OProbe "access" "/proc/1/uid_map")])).
Proof.
  intros H1 H2 H3. destruct s as [e0 c0 evs0]; unfold mount_sys, check_uid_map; mstep.
  rewrite H1; mstep. rewrite H2, H3; mstep. rewrite <- app_assoc; reflexivity.
Qed.

(** X8: on a host whose [/sys/fs/cgroup] is not cgroup2 and that has no
    [/proc/1/uid_map], a successful [mount_sys] mounts exactly [/sys] and
    [/sys/fs/cgroup] non-recursively, then each controller directory of the
    host's [/sys/fs/cgroup] non-recursively. *)
Theorem mount_sys_no_uid_map env root s s' t :
  statfs_cgroup env = Some t -> Z.eqb t CGROUP2_SUPER_MAGIC = false ->
  sys_access env "/proc/1/uid_map" = false ->
  mount_sys env root s = (Ok tt, s') ->
  exists l, events s' = events s ++ l /\
    mount_ops l =
      [OMount "/sys" (root +++ "/" +++ "sys") "bind" MS_BIND;
       OMount "/sys/fs/cgroup" (root +++ "/" +++ "sys/fs/cgroup") "bind" MS_BIND] ++
      map (fun n => OMount ("sys/fs/cgroup/" +++ n) (root +++ "/" +++ "sys/fs/cgroup/" +++ n)
                           "bind" MS_BIND)
          (controllers (host_dir env "/sys/fs/cgroup")).
Proof.
  intros H1 H2 H3 H. rewrite (mount_sys_no_uid_map_eq env root s t H1 H2 H3) in H.
  apply mount_sys_legacy_Ok in H as (l & E & Mo). cbn [events] in E.
  eexists; split; [rewrite E, <- app_assoc; reflexivity|]. exact Mo.
Qed.

Lemma mount_sys_no_uid_map_witness :
  exists l, events (snd (mount_sys (cgroup_host_env (Some TMPFS_MAGIC) false true true true) "/r" st0))
            = events st0 ++ l /\
    mount_ops l =
      [OMount "/sys" ("/r" +++ "/" +++ "sys") "bind" MS_BIND;
       OMount "/sys/fs/cgroup" ("/r" +++ "/" +++ "sys/fs/cgroup") "bind" MS_BIND] ++
      map (fun n => OMount ("sys/fs/cgroup/" +++ n) ("/r" +++ "/" +++ "sys/fs/cgroup/" +++ n)
                           "bind" MS_BIND)
          (controllers (host_dir (cgroup_host_env (Some TMPFS_MAGIC) false true true true) "/sys/fs/cgroup")).
Proof.
  apply (mount_sys_no_uid_map _ _ _ _ TMPFS_MAGIC); [reflexivity | reflexivity | reflexivity |].
  vm_compute; reflexivity.
Defined.


Lemma devnode_step_Ok_mounts env root from s s' :
  devnode_step env root from s = (Ok tt, s') ->
  exists l, events s' = events s ++ l /\
    mount_ops l = if sys_access env from then [OMount from (root +++ from) "bind" MS_BIND] else [].
Proof.
  destruct s as [e0 c0 evs0]; unfold devnode_step, do_mount; mstep.
  destruct (sys_access env from); mstep.
  - split_ifs; intros H; inversion H; subst;
      eexists; (split; [repeat rewrite <- app_assoc; reflexivity | reflexivity]).
  - intros H; inversion H; subst; eexists; split; [reflexivity | reflexivity].
Qed.

(** X9: a successful pass over [devnodes] and [dirs_mount_table] mounts
    exactly the device nodes present on the host, each non-recursively on
    [root ++ node], then the four directories of [dirs_mount_table] with
    their flags, in table order. *)
Theorem dev_mounts_Ok env root s s' :
  dev_mounts env root s = (Ok tt, s') ->
  exists l, events s' = events s ++ l /\
    mount_ops l =
      flat_map (fun from => if sys_access env from then [OMount from (root +++ from) "bind" MS_BIND]
                            else []) devnodes ++
      map (fun m => OMount (mp_source m) (root +++ "/" +++ mp_target m) (mp_type m) (mp_flags m))
          dirs_mount_table.
Proof.
  unfold dev_mounts; intros H.
  apply bind_Ok_inv in H as ([] & s1 & H1 & H2).
  destruct (for_each_mounts devnodes (devnode_step env root) _
              (fun x s s1 => devnode_step_Ok_mounts env root x s s1) s s1 H1) as (l1 & E1 & M1).
  destruct (for_each_mounts dirs_mount_table (mount_at env root)
              (fun m => [OMount (mp_source m) (root +++ "/" +++ mp_target m) (mp_type m) (mp_flags m)])
              (fun m s s1 Hm => match mount_at_Ok env root m s s1 Hm with
                                | conj _ (conj _ (conj _ E)) => ex_intro _ _ (conj E eq_refl) end)
              s1 s' H2) as (l2 & E2 & M2).
  exists (l1 ++ l2); split; [rewrite E2, E1, app_assoc; reflexivity|].
  rewrite mount_ops_app, M1, M2; reflexivity.
Qed.

Lemma dev_mounts_Ok_witness :
  exists l, events (snd (dev_mounts (sample_env TMPFS_MAGIC ID_UID_MAP false true) "/r" st0)) = events st0 ++ l /\
    mount_ops l =
      flat_map (fun from => if sys_access (sample_env TMPFS_MAGIC ID_UID_MAP false true) from
                            then [OMount from ("/r" +++ from) "bind" MS_BIND] else []) devnodes ++
      map (fun m => OMount (mp_source m) ("/r" +++ "/" +++ mp_target m) (mp_type m) (mp_flags m))
          dirs_mount_table.
Proof. apply (dev_mounts_Ok (sample_env TMPFS_MAGIC ID_UID_MAP false true) "/r" st0); vm_compute; reflexivity. Defined.

Lemma symlink_step_Ok env root target name s s' :
  symlink_step env root target name s = (Ok tt, s') ->
  cur s' = cur s /\ events s' = events s ++ [(cur s, OSymlink target (root +++ name))].
Proof.
  destruct s as [e0 c0 evs0]; unfold symlink_step; split_ifs; intros H; inversion H; subst; auto.
Qed.

Lemma stays_file_step env root mnt : stays (file_step env root mnt).
Proof. unfold file_step, do_mount; prove_stays. Qed.

(** X11: a successful run of [main] ends with the two symlinks
    [root/dev/ptmx -> /dev/pts/ptmx] and
    [root/dev/log -> /run/systemd/journal/dev-log], in that order. *)
Theorem main_Ok_ends_with_symlinks env args s' :
  main env args st0 = (Ok tt, s') ->
  exists pre, events s' =
    pre ++ [(FileMounts, OSymlink "/dev/pts/ptmx" (nth 1 args "" +++ "/dev/ptmx"));
            (FileMounts, OSymlink "/run/systemd/journal/dev-log" (nth 1 args "" +++ "/dev/log"))].
Proof.
  unfold main; intros H.
  repeat match type of H with
  | bind (enter FileMounts) _ _ = _ => fail 1
  | bind _ _ _ = _ => apply bind_Ok_inv in H as (? & ? & _ & H); cbv beta zeta in H
  end.
  apply bind_Ok_inv in H as (? & s1 & HE & H). injection HE as _ <-.
  unfold file_mounts in H.
  apply bind_Ok_inv in H as ([] & s2 & H1 & H).
  apply bind_Ok_inv in H as ([] & s3 & H2 & H3).
  match type of H1 with for_each _ _ ?s0 = _ =>
    destruct (stays_for_each files_mount_table (file_step env (nth 1 args ""))
                (stays_file_step env (nth 1 args "")) s0) as [C _] end.
  rewrite H1 in C; cbn [snd cur] in C.
  apply symlink_step_Ok in H2 as (C2 & E2). apply symlink_step_Ok in H3 as (_ & E3).
  rewrite E3, C2, E2, C, <- app_assoc. eexists; reflexivity.
Qed.

Lemma main_Ok_ends_with_symlinks_witness :
  exists pre, events (snd (main (sample_env TMPFS_MAGIC ID_UID_MAP false true) ["prepare-app"; "/r"] st0)) =
    pre ++ [(FileMounts, OSymlink "/dev/pts/ptmx" (nth 1 ["prepare-app"; "/r"] "" +++ "/dev/ptmx"));
            (FileMounts, OSymlink "/run/systemd/journal/dev-log" (nth 1 ["prepare-app"; "/r"] "" +++ "/dev/log"))].
Proof. apply (main_Ok_ends_with_symlinks (sample_env TMPFS_MAGIC ID_UID_MAP false true)); vm_compute; reflexivity. Defined.

(** X12: in the cgroup-v1 branch of [mount_sys], when the two bind mounts
    of [/sys] and [/sys/fs/cgroup] succeed but [opendir] of the container's
    [sys/fs/cgroup] fails, the program exits with those two mounts left in
    place. *)
Theorem mount_sys_legacy_opendir_failure env root s :
  (String.length root < 4000)%nat ->
  sys_mount env "/sys" (root +++ "/" +++ "sys") MS_BIND = None ->
  sys_mount env "/sys/fs/cgroup" (root +++ "/" +++ "sys/fs/cgroup") MS_BIND = None ->
  sys_opendir env (root +++ "/" +++ "sys/fs/cgroup") = false ->
  match mount_sys_legacy env root s with
  | (Ok _, _) => False
  | (Exit _, s') => exists l, events s' = events s ++ l /\
      mount_ops l = [OMount "/sys" (root +++ "/" +++ "sys") "bind" MS_BIND;
                     OMount "/sys/fs/cgroup" (root +++ "/" +++ "sys/fs/cgroup") "bind" MS_BIND]
  end.
Proof.
  intros L M1 M2 O. destruct s as [e0 c0 evs0].
  unfold mount_sys_legacy; cbn [for_each sys_bind_table]; unfold mount_at, do_mount.
  split_ifs;
    try (exfalso; repeat rewrite length_append_str in *; cbn [String.length] in *;
         unfold PATH_BUF in *; lia);
    try congruence.
  eexists; split; [repeat rewrite <- app_assoc; reflexivity | reflexivity].
Qed.

Lemma mount_sys_legacy_opendir_failure_witness :
  match mount_sys_legacy (cgroup_host_env (Some TMPFS_MAGIC) false true true false) "/r" st0 with
  | (Ok _, _) => False
  | (Exit _, s') => exists l, events s' = events st0 ++ l /\
      mount_ops l = [OMount "/sys" ("/r" +++ "/" +++ "sys") "bind" MS_BIND;
                     OMount "/sys/fs/cgroup" ("/r" +++ "/" +++ "sys/fs/cgroup") "bind" MS_BIND]
  end.
Proof. apply mount_sys_legacy_opendir_failure; vm_compute; first [lia | reflexivity]. Defined.

(** X13: every check increments the exit code before it is tested, so the
    first checks of [main] exit with distinct codes: 1 for fewer than two
    arguments, 2 when the bind mount of the root on itself fails, 3 when
    opening the root fails. *)
Theorem main_setup_exit_codes env args :
  (length args < 2 -> fst (main env args st0) = Exit 1) /\
  (2 <= length args ->
   is_some (sys_mount env (nth 1 args "") (nth 1 args "") (N.lor MS_BIND MS_REC)) = true ->
   fst (main env args st0) = Exit 2) /\
  (2 <= length args ->
   sys_mount env (nth 1 args "") (nth 1 args "") (N.lor MS_BIND MS_REC) = None ->
   sys_open_root env = false ->
   fst (main env args st0) = Exit 3).
Proof.
  unfold main, setup, do_mount, st0.
  split; [|split]; intros L.
  - apply Nat.ltb_lt in L; mstep; rewrite L; reflexivity.
  - intros Hm. apply Nat.ltb_ge in L; mstep; rewrite L; mstep.
    destruct (sys_mount env _ _ _); [reflexivity|discriminate].
  - intros Hm Ho. apply Nat.ltb_ge in L; mstep; rewrite L; mstep. rewrite Hm; mstep.
    rewrite Ho; reflexivity.
Qed.






